(** * git2txt: the file-selection and aggregation pipeline

    A shallow embedding of [processFiles] and of its nested helper
    [processDirectory] (the [index.js] variant that supports [--max-files],
    [--truncate] and [--ignore]), with the properties of the written
    specification stated and proved, or refuted, against it.

    The file system is an input of the model: a directory is the list of
    [Dirent]s that [fs.readdir] returns for it, and every file entry records
    what [fs.stat], [isBinaryFile] and [fs.readFile] answer for it, each of
    which may throw.  The three library functions the walker calls
    ([minimatch], [filesize] and the number formatting of template literals)
    are parameters of the development. *)

From Stdlib Require Import ZArith QArith List String Ascii Bool Lia DecimalString.
Import ListNotations.

Local Open Scope Z_scope.

(** ** JavaScript primitives *)

Module JS.

(** A line feed, the escape [\n] of the source's template literals. *)
Definition nl : string := String (ascii_of_nat 10) EmptyString.

(** Truthiness of a number: [0] is falsy. *)
Definition truthy (n : Z) : bool := negb (n =? 0).

(** [a > b] on numbers, here a rational on the right. *)
Definition gt (a : Z) (b : Q) : bool := negb (Qle_bool (inject_Z a) b).

(** [ToIntegerOrInfinity]: truncation towards zero. *)
Definition toInteger (q : Q) : Z := Z.quot (Qnum q) (Zpos (Qden q)).

(** [s.slice(0, e)]: a negative end counts from the end of the string,
    and the end is clamped to the length. *)
Definition slice0 (s : string) (e : Q) : string :=
  let len := Z.of_nat (String.length s) in
  let intEnd := toInteger e in
  let final := if intEnd <? 0 then Z.max (len + intEnd) 0 else Z.min intEnd len in
  substring 0 (Z.to_nat final) s.

End JS.

Notation "a +++ b" := (String.append a b) (at level 60, right associativity).

(** ** Data model *)

(** What the three asynchronous calls made on a file answer; [None] stands
    for a rejected promise (the call throws).  [readFile] is the decoded
    text, a sequence of UTF-16 code units, while [stat] is the size on disk
    in bytes: the two agree only for single-byte text. *)
Record fileInfo : Type := mkFile {
  stat : option Z;
  isBinaryFile : option bool;
  readFile : option string
}.

(** A [Dirent].  [Directory name None] is a directory whose [fs.readdir]
    throws; [Other] is an entry that is neither a file nor a directory
    (symbolic link, socket, ...). *)
#[local] Unset Elimination Schemes.
Inductive entry : Type :=
| File (name : string) (f : fileInfo)
| Directory (name : string) (readdir : option (list entry))
| Other (name : string).
#[local] Set Elimination Schemes.

(** The [options] object of [processFiles]. *)
Record options : Type := mkOptions {
  threshold : Q;
  includeAll : bool;
  ignorePatterns : option (list string);
  truncate : bool;
  maxFiles : Z
}.

(** The variables the closure [processDirectory] shares with [processFiles]. *)
Record state : Type := mkState {
  output : string;
  processedFiles : Z;
  skippedFiles : Z;
  omittedFiles : Z
}.

Inductive error : Type :=
| ReaddirError (dir : string).

Inductive result (A : Type) : Type :=
| Ok (a : A)
| Throw (e : error).

Arguments Ok {A} a.
Arguments Throw {A} e.

Definition bind {A B : Type} (r : result A) (k : A -> result B) : result B :=
  match r with
  | Ok a => k a
  | Throw e => Throw e
  end.

Notation "x <- r ;; k" := (bind r (fun x => k))
  (at level 100, r at next level, right associativity).

(** The branch of the [try] block a file entry leaves through.  The skip
    branches are those that log [Skipping large file], [Skipping binary
    file], [Skipping ignored file] and [Error processing] in debug mode. *)
Inductive outcome : Type :=
| SkipLarge
| SkipBinary
| SkipIgnored
| SkipUnreadable
| Omit (size : Z)
| IncludeFull (size : Z) (content : string)
| IncludeTruncated (size : Z) (content : string).

(** [path.relative(directory, path.join(dir, name))] for a directory [dir]
    whose own path relative to the root is [rel] (empty for the root). *)
Definition relPath (rel name : string) : string :=
  if (rel =? "")%string then name else rel +++ "/" +++ name.

Definition emit (st : state) (text : string) : state :=
  mkState (output st +++ text) (processedFiles st) (skippedFiles st) (omittedFiles st).

Definition skip (st : state) : state :=
  mkState (output st) (processedFiles st) (skippedFiles st + 1) (omittedFiles st).

Definition initial : state := mkState "" 0 0 0.

(** The library functions the walker imports: [minimatch(path, pattern)],
    [filesize(bytes)] (imported as [formatFileSize]), and the string a
    number takes inside a template literal.  They are taken to return on
    every argument the walker passes them. *)
Class Library : Type := mkLibrary {
  minimatch : string -> string -> bool;
  formatFileSize : Z -> string;
  numberToString : Q -> string
}.

Section Walker.

Context {L : Library}.
Variable o : options.

(** [options.threshold * 1024 * 1024].  A finite double is a rational and
    its product by [2^20] is exact, so the rational product is the value
    the source computes. *)
Definition thresholdBytes : Q := (threshold o * 1024 * 1024)%Q.

(** [options.ignorePatterns && options.ignorePatterns.some(...)]. *)
Definition isIgnored (relativePath : string) : bool :=
  match ignorePatterns o with
  | Some patterns => existsb (fun pattern => minimatch relativePath pattern) patterns
  | None => false
  end.

Definition fileHeader (relativePath : string) (size : Z) : string :=
  JS.nl +++ "**** File: " +++ relativePath +++ ", size: " +++ formatFileSize size +++ JS.nl.

Definition truncationNote : string :=
  JS.nl +++ JS.nl +++ "[Truncated: File size exceeds "
    +++ numberToString (threshold o) +++ " MB]" +++ JS.nl.

Definition cutoffMarker (relativePath : string) (size : Z) : string :=
  fileHeader relativePath size
    +++ "This file and all following files were omitted due to max-files limit." +++ JS.nl.

Definition fragment (relativePath : string) (size : Z) (content : string) : string :=
  (fileHeader relativePath size +++ JS.nl) +++ (content +++ JS.nl).

Definition directoryMarker (relativePath : string) : string :=
  JS.nl +++ "**** Directory: " +++ relativePath.

Definition summaryLine (omitted : Z) : string :=
  (JS.nl +++ JS.nl) +++ "Total " +++ numberToString (inject_Z omitted)
    +++ " files were omitted due to the maxFiles limit" +++ JS.nl.

(** The body of the [try] block, as the branch it takes.  [processed] is
    the value of [processedFiles] when the entry is reached. *)
Definition classify (relativePath : string) (f : fileInfo) (processed : Z) : outcome :=
  match stat f with
  | None => SkipUnreadable
  | Some size =>
    if negb (includeAll o) && JS.gt size thresholdBytes && negb (truncate o)
    then SkipLarge
    else
      match (if negb (includeAll o) then isBinaryFile f else Some false) with
      | None => SkipUnreadable
      | Some true => SkipBinary
      | Some false =>
        if isIgnored relativePath then SkipIgnored
        else
          match readFile f with
          | None => SkipUnreadable
          | Some content =>
            if JS.truthy (maxFiles o) && (maxFiles o <=? processed)
            then Omit size
            else if truncate o && JS.gt size thresholdBytes
            then IncludeTruncated size (JS.slice0 content thresholdBytes +++ truncationNote)
            else IncludeFull size content
          end
      end
  end.

(** The effect of each branch on the shared variables. *)
Definition settle (relativePath : string) (oc : outcome) (st : state) : state :=
  match oc with
  | SkipLarge | SkipBinary | SkipIgnored | SkipUnreadable => skip st
  | Omit size =>
    let omitted := omittedFiles st + 1 in
    mkState (if omitted =? 1
             then output st +++ cutoffMarker relativePath size
             else output st)
            (processedFiles st) (skippedFiles st) omitted
  | IncludeFull size content | IncludeTruncated size content =>
    mkState (output st +++ fragment relativePath size content)
            (processedFiles st + 1) (skippedFiles st) (omittedFiles st)
  end.

Definition processFile (relativePath : string) (f : fileInfo) (st : state) : state :=
  settle relativePath (classify relativePath f (processedFiles st)) st.

(** The first loop of [processDirectory]: directories and entries that
    are not files are passed over. *)
Definition fileLoopStep (rel : string) (st : state) (e : entry) : state :=
  match e with
  | File name f => processFile (relPath rel name) f st
  | Directory _ _ => st
  | Other _ => st
  end.

Definition fileLoop (rel : string) (entries : list entry) (st : state) : state :=
  fold_left (fileLoopStep rel) entries st.

Section DirLoop.

(** What the second loop does with one entry. *)
Variable visit : string -> entry -> state -> result state.

Fixpoint dirLoop (rel : string) (entries : list entry) (st : state) : result state :=
  match entries with
  | [] => Ok st
  | e :: rest => st' <- visit rel e st ;; dirLoop rel rest st'
  end.

(** [processDirectory(dir)], for [dir] at relative path [rel]. *)
Definition processDirectoryWith (rel : string) (listing : option (list entry))
           (st : state) : result state :=
  match listing with
  | None => Throw (ReaddirError rel)
  | Some entries => dirLoop rel entries (fileLoop rel entries st)
  end.

End DirLoop.

(** The body of the second loop: an ignored directory is passed over,
    any other one gets its marker and is processed recursively. *)
Fixpoint visitDirectory (rel : string) (e : entry) (st : state) {struct e} : result state :=
  match e with
  | Directory name listing =>
    let relativePath := relPath rel name in
    if isIgnored relativePath then Ok st
    else processDirectoryWith visitDirectory relativePath listing
           (emit st (directoryMarker relativePath))
  | File _ _ => Ok st
  | Other _ => Ok st
  end.

Definition processDirectory : string -> option (list entry) -> state -> result state :=
  processDirectoryWith visitDirectory.

(** The [try] block of [processFiles], returning the shared variables
    together with the text. *)
Definition run (root : option (list entry)) : result state :=
  st <- processDirectory "" root initial ;;
  Ok (if 0 <? omittedFiles st then emit st (summaryLine (omittedFiles st)) else st).

Definition processFiles (root : option (list entry)) : result string :=
  st <- run root ;; Ok (output st).

End Walker.

(** ** The traversal, as the specification words it

    Files of a directory come first, in listing order; then each
    subdirectory in listing order, its ignored status checked before it is
    entered; an ignored directory contributes nothing. *)

Inductive item : Type :=
| VisitFile (relativePath : string) (f : fileInfo)
| EnterDirectory (relativePath : string)
| ListingFails (dir : string).

(** The pieces the aggregated text is made of. *)
Inductive piece : Type :=
| Fragment (relativePath : string) (size : Z) (content : string)
| Cutoff (relativePath : string) (size : Z)
| DirMarker (relativePath : string)
| Summary (omitted : Z).

(** The files a run has accounted for. *)
Definition counted (st : state) : Z :=
  processedFiles st + skippedFiles st + omittedFiles st.

Definition countIf {A : Type} (p : A -> bool) (xs : list A) : Z :=
  Z.of_nat (List.length (filter p xs)).

Definition isVisitFile (it : item) : bool :=
  match it with VisitFile _ _ => true | _ => false end.

Definition isFragment (p : piece) : bool :=
  match p with Fragment _ _ _ => true | _ => false end.

Definition isCutoff (p : piece) : bool :=
  match p with Cutoff _ _ => true | _ => false end.

(** The (relativePath, sizeBytes) pairs of the fragments among [ps]. *)
Definition pairsOf (ps : list piece) : list (string * Z) :=
  flat_map (fun p => match p with Fragment r s _ => [(r, s)] | _ => [] end) ps.

Definition cutoffOf (file : string * Z) : piece := Cutoff (fst file) (snd file).

Definition isSkip (oc : outcome) : bool :=
  match oc with
  | SkipLarge | SkipBinary | SkipIgnored | SkipUnreadable => true
  | _ => false
  end.

Definition filesOf (rel : string) (entries : list entry) : list item :=
  flat_map (fun e => match e with
                     | File name f => [VisitFile (relPath rel name) f]
                     | _ => []
                     end) entries.

Section Traversal.

Context {L : Library}.
Variable o : options.

Section Below.

Variable below : string -> entry -> list item.

Definition traversalWith (rel : string) (listing : option (list entry)) : list item :=
  match listing with
  | None => [ListingFails rel]
  | Some entries => filesOf rel entries ++ flat_map (below rel) entries
  end.

End Below.

Fixpoint below (rel : string) (e : entry) {struct e} : list item :=
  match e with
  | Directory name listing =>
    let relativePath := relPath rel name in
    if isIgnored o relativePath then []
    else EnterDirectory relativePath :: traversalWith below relativePath listing
  | _ => []
  end.

(** Everything the walk meets under a directory, in order. *)
Definition traversal : string -> option (list entry) -> list item :=
  traversalWith below.

(** One item of the traversal, applied to the shared variables. *)
Definition step (it : item) (st : state) : result state :=
  match it with
  | VisitFile relativePath f => Ok (processFile o relativePath f st)
  | EnterDirectory relativePath => Ok (emit st (directoryMarker relativePath))
  | ListingFails dir => Throw (ReaddirError dir)
  end.

Fixpoint steps (items : list item) (st : state) : result state :=
  match items with
  | [] => Ok st
  | it :: rest => st' <- step it st ;; steps rest st'
  end.

Definition render (p : piece) : string :=
  match p with
  | Fragment relativePath size content => fragment relativePath size content
  | Cutoff relativePath size => cutoffMarker relativePath size
  | DirMarker relativePath => directoryMarker relativePath
  | Summary omitted => summaryLine omitted
  end.

Definition renderAll (ps : list piece) : string :=
  fold_right (fun p text => render p +++ text) EmptyString ps.

(** What one item appends to the text, from the state it is met in: the
    pieces are the appends of [settle] and of the directory loop, named;
    [step_output] below ties them to the text. *)
Definition emitted (it : item) (st : state) : list piece :=
  match it with
  | VisitFile relativePath f =>
    match classify o relativePath f (processedFiles st) with
    | IncludeFull size content | IncludeTruncated size content =>
      [Fragment relativePath size content]
    | Omit size => if omittedFiles st =? 0 then [Cutoff relativePath size] else []
    | _ => []
    end
  | EnterDirectory relativePath => [DirMarker relativePath]
  | ListingFails _ => []
  end.

Fixpoint trace (items : list item) (st : state) : list piece :=
  match items with
  | [] => []
  | it :: rest =>
    emitted it st ++ match step it st with
                     | Ok st' => trace rest st'
                     | Throw _ => []
                     end
  end.

(** The files that leave through the omitted branch, in order. *)
Fixpoint omittedList (items : list item) (st : state) : list (string * Z) :=
  match items with
  | [] => []
  | it :: rest =>
    match it with
    | VisitFile relativePath f =>
      match classify o relativePath f (processedFiles st) with
      | Omit size => [(relativePath, size)]
      | _ => []
      end
    | _ => []
    end ++ match step it st with
           | Ok st' => omittedList rest st'
           | Throw _ => []
           end
  end.

(** A file is eligible when no check skips it: it is not oversized with
    truncation off, not binary, not ignored and readable.  (Whether a
    check skips a file does not depend on the count of processed files,
    taken as [0] here.) *)
Definition eligible (relativePath : string) (f : fileInfo) : bool :=
  negb (isSkip (classify o relativePath f 0)).

Definition eligibleItem (it : item) : bool :=
  match it with
  | VisitFile relativePath f => eligible relativePath f
  | _ => false
  end.

(** The pieces of a whole run: those of the walk, then the summary. *)
Definition pieces (root : option (list entry)) (final : state) : list piece :=
  trace (traversal "" root) initial
    ++ (if 0 <? omittedFiles final then [Summary (omittedFiles final)] else []).

End Traversal.

(** ** Reading the text back

    The reader a consumer of the text would write: cut the text into
    lines, keep those that begin with the file marker. *)

Fixpoint lines (s : string) : list string :=
  match s with
  | EmptyString => [EmptyString]
  | String c rest =>
    if Ascii.eqb c (ascii_of_nat 10) then EmptyString :: lines rest
    else match lines rest with
         | l :: ls => String c l :: ls
         | [] => [String c EmptyString]
         end
  end.

Fixpoint stripPrefix (p s : string) : option string :=
  match p with
  | EmptyString => Some s
  | String a p' =>
    match s with
    | EmptyString => None
    | String b s' => if Ascii.eqb a b then stripPrefix p' s' else None
    end
  end.

Definition headerLine (l : string) : list string :=
  match stripPrefix "**** File: " l with
  | Some h => [h]
  | None => []
  end.

Definition fileHeaders (text : string) : list string :=
  flat_map headerLine (lines text).

Fixpoint singleLine (s : string) : bool :=
  match s with
  | EmptyString => true
  | String c rest => negb (Ascii.eqb c (ascii_of_nat 10)) && singleLine rest
  end.

Section Reading.

Context {L : Library}.

(** What a header line holds after the marker. *)
Definition headerText (file : string * Z) : string :=
  fst file +++ ", size: " +++ formatFileSize (snd file).

Definition headerOf (p : piece) : list string :=
  match p with
  | Fragment r s _ => [headerText (r, s)]
  | Cutoff r s => [headerText (r, s)]
  | _ => []
  end.

(** A piece that cannot be misread: the path and the numbers put in it
    hold no line feed, and no line of its content begins with the file
    marker. *)
Definition clean (p : piece) : bool :=
  match p with
  | Fragment r s c =>
    singleLine r && singleLine (formatFileSize s)
    && match fileHeaders c with [] => true | _ => false end
  | Cutoff r s => singleLine r && singleLine (formatFileSize s)
  | DirMarker r => singleLine r
  | Summary n => singleLine (numberToString (inject_Z n))
  end.

End Reading.

(** ** Sample inputs *)

Module Sample.

Definition showZ (n : Z) : string := NilZero.string_of_int (Z.to_int n).

(** Stand-ins for the imported functions, used by the examples only:
    patterns without glob characters, which match exactly themselves;
    sizes below one kilobyte, which [filesize] prints as [<n> B]; and
    numbers printed as an integer or as a fraction. *)
Definition lib : Library :=
  mkLibrary String.eqb
            (fun size => showZ size +++ " B")
            (fun q => if (Zpos (Qden q) =? 1)
                      then showZ (Qnum q)
                      else showZ (Qnum q) +++ "/" +++ showZ (Zpos (Qden q))).

(** [threshold] 1 MB, nothing ignored, no truncation, no file limit. *)
Definition defaults : options := mkOptions 1 false None false 0.

Definition text (size : Z) (content : string) : fileInfo :=
  mkFile (Some size) (Some false) (Some content).

Definition binary (size : Z) (content : string) : fileInfo :=
  mkFile (Some size) (Some true) (Some content).

(** The tree of the specification's scenarios. *)
Definition scenario : option (list entry) :=
  Some [ File "a.txt" (text 5 "hello");
         File "b.bin" (binary 4 "%PDF");
         Directory "sub" (Some [ File "c.txt" (text 5 "world") ]) ].

(** Five two-byte characters (e acute, U+00E9): ten bytes on disk, five
    UTF-16 code units once decoded. *)
Definition accents : string :=
  string_of_list_ascii (repeat (ascii_of_nat 233) 5).

(** A threshold of seven bytes, [7 / 2^20] MB, with truncation on. *)
Definition sevenBytes : options := mkOptions (7 # 1048576) false None true 0.

(** At most one file. *)
Definition limitOne : options := mkOptions 1 false None false 1.

(** The directory [sub] ignored by its name. *)
Definition ignoreSub : options := mkOptions 1 false (Some ["sub"%string]) false 0.

Definition emptyDir : option (list entry) :=
  Some [ Directory "empty" (Some []) ].

(** A listable root with a subdirectory that cannot be listed. *)
Definition brokenSub : option (list entry) :=
  Some [ File "a.txt" (text 5 "hello"); Directory "sub" None ].

(** Two megabytes of non-text bytes. *)
Definition bigBinary : fileInfo := binary 2097152 "%PDF".

End Sample.

(** ** Tests on directory entries *)

(** [entry.isFile()] and [entry.isDirectory()]. *)
Definition isFile (e : entry) : bool :=
  match e with File _ _ => true | _ => false end.

Definition isDirectory (e : entry) : bool :=
  match e with Directory _ _ => true | _ => false end.

(** [stat] and [readFile] both answer. *)
Definition readable (f : fileInfo) : bool :=
  match stat f, readFile f with
  | Some _, Some _ => true
  | _, _ => false
  end.

(** A visited file whose size, when known, does not exceed the threshold. *)
Definition withinThreshold (o : options) (it : item) : bool :=
  match it with
  | VisitFile _ f =>
    match stat f with
    | Some size => negb (JS.gt size (thresholdBytes o))
    | None => true
    end
  | _ => true
  end.

(** [o] with another value for [truncate]. *)
Definition withTruncate (o : options) (b : bool) : options :=
  mkOptions (threshold o) (includeAll o) (ignorePatterns o) b (maxFiles o).

(** ** The command line

    [validateInput], [normalizeGitHubUrl], the name [downloadRepository]
    gives the repository, and the options [main] hands to [processFiles].
    Strings are sequences of code units; the ones below 256 are all that
    the tests on prefixes, slashes and word characters tell apart. *)

(** A call that returns, or throws [new Error(message)]. *)
Inductive thrown (A : Type) : Type :=
| Returns (a : A)
| Throws (message : string).

Arguments Returns {A} a.
Arguments Throws {A} message.

Module Str.

(** [s.startsWith(p)]. *)
Definition startsWith (p s : string) : bool :=
  match stripPrefix p s with Some _ => true | None => false end.

(** [s.includes(p)]. *)
Fixpoint includes (p s : string) : bool :=
  startsWith p s
  || match s with
     | EmptyString => false
     | String _ rest => includes p rest
     end.

(** [s.split(sep)] for a separator of one character. *)
Fixpoint split (sep : ascii) (s : string) : list string :=
  match s with
  | EmptyString => [EmptyString]
  | String c rest =>
    if Ascii.eqb c sep then EmptyString :: split sep rest
    else match split sep rest with
         | part :: parts => String c part :: parts
         | [] => [String c EmptyString]
         end
  end.

(** [parts.pop()] on the array a [split] returns, which is never empty. *)
Definition pop (parts : list string) : string := last parts EmptyString.

(** [s.replace(p, '')] for a string [p]: the first occurrence goes. *)
Fixpoint removeFirst (p s : string) : string :=
  match stripPrefix p s with
  | Some rest => rest
  | None =>
    match s with
    | EmptyString => EmptyString
    | String c rest => String c (removeFirst p rest)
    end
  end.

(** [s.replace(/\/+$/, '')]: the slashes the string ends with go. *)
Fixpoint stripTrailingSlashes (s : string) : string :=
  match s with
  | EmptyString => EmptyString
  | String c rest =>
    match stripTrailingSlashes rest with
    | EmptyString => if Ascii.eqb c "/" then EmptyString else String c EmptyString
    | kept => String c kept
    end
  end.

(** The class [[\w-]]: letters, digits, underscore and hyphen. *)
Definition wordOrHyphen (c : ascii) : bool :=
  let n := nat_of_ascii c in
  ((48 <=? n) && (n <=? 57) || (65 <=? n) && (n <=? 90) || (97 <=? n) && (n <=? 122)
   || (n =? 95) || (n =? 45))%nat.

(** [[\w-]+$]. *)
Fixpoint wordRun (s : string) : bool :=
  match s with
  | EmptyString => false
  | String c EmptyString => wordOrHyphen c
  | String c rest => wordOrHyphen c && wordRun rest
  end.

(** [[\w-]*\/[\w-]+$]: the class excludes the slash, so the greedy run
    ends at the first slash and nothing is left to backtrack over. *)
Fixpoint runThenRepo (s : string) : bool :=
  match s with
  | EmptyString => false
  | String c rest =>
    if Ascii.eqb c "/" then wordRun rest
    else wordOrHyphen c && runThenRepo rest
  end.

(** [s.match(/^[\w-]+\/[\w-]+$/)], as a truth value. *)
Definition shortForm (s : string) : bool :=
  match s with
  | EmptyString => false
  | String c rest => wordOrHyphen c && runThenRepo rest
  end.

(** Every character of [s] passes [test]. *)
Fixpoint all (test : ascii -> bool) (s : string) : bool :=
  match s with
  | EmptyString => true
  | String c rest => test c && all test rest
  end.

Definition isSlash (c : ascii) : bool := Ascii.eqb c "/".

Definition isDot (c : ascii) : bool := Ascii.eqb c ".".

End Str.

Definition validateInput (input : option (list string)) : thrown string :=
  match input with
  | None | Some [] => Throws "Repository URL is required"
  | Some (url :: _) =>
    if negb (Str.includes "github.com" url) && negb (Str.shortForm url)
    then Throws "Only GitHub repositories are supported"
    else Returns url
  end.

(** The error thrown inside the [try] is caught and replaced by one that
    quotes [url], which by then has lost its trailing slashes. *)
Definition normalizeGitHubUrl (url : string) : thrown string :=
  let url := Str.stripTrailingSlashes url in
  if Str.startsWith "git@github.com:" url then Returns url
  else if Str.startsWith "https://github.com/" url then Returns url
  else if Str.shortForm url then Returns ("https://github.com/" +++ url)
  else Throws ("Invalid GitHub URL: " +++ url).

(** [url.split('/').pop().replace('.git', '')] in [downloadRepository]:
    taken from the URL as given, not from the normalized one. *)
Definition repoName (url : string) : string :=
  Str.removeFirst ".git" (Str.pop (Str.split "/" url)).

Definition alwaysIgnored : list string := ["node_modules"; ".git"]%string.

(** The flags of [cli] that [main] reads; [outputFlag] is [None] when
    [--output] is not given. *)
Record flags : Type := mkFlags {
  outputFlag : option string;
  thresholdFlag : Q;
  truncateFlag : bool;
  maxFilesFlag : Z;
  includeAllFlag : bool;
  ignoreFlag : string
}.

(** The defaults the [meow] declaration gives the flags. *)
Definition defaultFlags : flags := mkFlags None (1 # 10) false 0 false "".

(** The object literal [main] passes to [processFiles]. *)
Definition mainOptions (fl : flags) : options :=
  mkOptions (thresholdFlag fl) (includeAllFlag fl)
            (Some (Str.split "," (ignoreFlag fl) ++ alwaysIgnored))
            (truncateFlag fl) (maxFilesFlag fl).

(** [cli.flags.output || `${result.repoName}.txt`]: an empty string is
    falsy. *)
Definition outputPath (fl : flags) (name : string) : string :=
  match outputFlag fl with
  | Some (String c rest) => String c rest
  | _ => name +++ ".txt"
  end.

(** ** The main function

    What [main] does is observed through the effects it has on the file
    system and the way it ends.  The clone and the write are inputs of the
    model. *)

(** [Wrote path content]: [fs.writeFile] put [content] at [path];
    [CleanedUp]: [cleanup(tempDir)] was called (it never throws). *)
Inductive effect : Type :=
| Wrote (path content : string)
| CleanedUp.

(** [Exited code] is [process.exit(code)], which ends the process on the
    spot; [Rejected message] is the promise of [main] rejected with
    [new Error(message)]. *)
Inductive ending : Type :=
| Completed
| Exited (code : Z)
| Rejected (message : string).

(** [testEnv] is [process.env.NODE_ENV === 'test'].  [gitClone] stands
    for [fs.mkdir], the [git clone] of the normalized URL and the
    [fs.readdir] that follows: the listing of the clone, or the error of
    the first of them that fails.  [writeFile] tells whether
    [fs.writeFile] of a content at a path succeeds. *)
Record world : Type := mkWorld {
  testEnv : bool;
  cliInput : option (list string);
  cliFlags : flags;
  gitClone : string -> thrown (list entry);
  writeFile : string -> string -> bool
}.

(** The [catch] of [downloadRepository] cleans up and rethrows. *)
Definition downloadRepository (w : world) (url : string)
  : list effect * thrown (list entry * string) :=
  match normalizeGitHubUrl url with
  | Throws message => ([CleanedUp], Throws message)
  | Returns normalizedUrl =>
    match gitClone w normalizedUrl with
    | Throws message => ([CleanedUp], Throws message)
    | Returns [] => ([CleanedUp], Throws "Repository appears to be empty")
    | Returns (e :: es) => ([], Returns (e :: es, repoName url))
    end
  end.

(** [main].  Outside the test environment the [catch] ends the process
    with [exit(1)], so the [finally] that would clean up is not reached;
    in the test environment only [validateInput] runs. *)
Definition main {L : Library} (w : world) : list effect * ending :=
  match validateInput (cliInput w) with
  | Throws message => ([], if testEnv w then Rejected message else Exited 1)
  | Returns url =>
    if testEnv w then ([], Completed)
    else
      match downloadRepository w url with
      | (effects, Throws _) => (effects, Exited 1)
      | (effects, Returns (files, name)) =>
        match processFiles (mainOptions (cliFlags w)) (Some files) with
        | Throw _ => (effects, Exited 1)
        | Ok EmptyString => (effects, Exited 1)
        | Ok content =>
          if writeFile w (outputPath (cliFlags w) name) content
          then (effects ++ [Wrote (outputPath (cliFlags w) name) content; CleanedUp],
                Completed)
          else (effects, Exited 1)
        end
      end
  end.

(** ** Sample worlds *)

Module Worlds.

(** A world outside the test environment, asked for [url], in which the
    clone yields [files] and every write succeeds. *)
Definition cloning (url : string) (files : list entry) : world :=
  mkWorld false (Some [url]) defaultFlags (fun _ => Returns files) (fun _ _ => true).

Definition hello : list entry := [ File "a.txt" (Sample.text 5 "hello") ].

Definition onlyBinary : list entry := [ File "b.bin" (Sample.binary 4 "%PDF") ].

End Worlds.

(** ** More sample trees *)

Module Trees.



(** A directory inside a directory, with no file at all. *)
Definition nested : option (list entry) :=
  Some [ Directory "sub" (Some [ Directory "deep" (Some []) ]) ].

End Trees.

(** ** A matcher for plain patterns

    A stand-in for [minimatch], for the examples that need a pattern with
    a globstar.  It covers the patterns whose segments are plain names or
    [**], which the library compares to the path segment by segment: a
    plain segment matches the equal segment; a [**] that ends the pattern
    takes all the segments that remain, provided there is at least one and
    none begins with a dot; a [**] elsewhere takes any number of such
    segments.  A path that ends before the pattern does not match, so
    [dir/**] matches what is below [dir] and not [dir] itself. *)

Module Glob.

Definition dotted (segment : string) : bool :=
  match segment with
  | String c _ => Ascii.eqb c "."
  | EmptyString => false
  end.

Fixpoint matchOne (pattern file : list string) {struct pattern} : bool :=
  match pattern, file with
  | [], [] => true
  | [], [final] => String.eqb final ""
  | [], _ => false
  | _ :: _, [] => false
  | p :: rest, f :: file' =>
    if String.eqb p "**" then
      match rest with
      | [] => forallb (fun segment => negb (dotted segment)) (f :: file')
      | _ =>
        (fix swallow (remaining : list string) : bool :=
           match remaining with
           | [] => false
           | segment :: others =>
             matchOne rest remaining || (negb (dotted segment) && swallow others)
           end) (f :: file')
      end
    else String.eqb p f && matchOne rest file'
  end.

Definition matches (path pattern : string) : bool :=
  matchOne (Str.split "/" pattern) (Str.split "/" path).

(** The library of the samples, with this matcher. *)
Definition lib : Library :=
  mkLibrary matches
            (formatFileSize (Library := Sample.lib))
            (numberToString (Library := Sample.lib)).

(** Everything below [sub] ignored by a globstar pattern. *)
Definition ignoreBelowSub : options :=
  mkOptions 1 false (Some ["sub/**"%string]) false 0.

End Glob.

(** ** Strings *)

Lemma append_assoc (a b c : string) : (a +++ b) +++ c = a +++ (b +++ c).
Proof.
  induction a as [|ch a IH]; simpl; [reflexivity | now rewrite IH].
Qed.

Lemma append_empty_r (a : string) : a +++ "" = a.
Proof.
  induction a as [|ch a IH]; simpl; [reflexivity | now rewrite IH].
Qed.

Lemma length_append (a b : string) :
  String.length (a +++ b) = (String.length a + String.length b)%nat.
Proof.
  induction a as [|ch a IH]; simpl; [reflexivity | now rewrite IH].
Qed.

Lemma length_substring_0 (n : nat) (s : string) :
  String.length (substring 0 n s) = Nat.min n (String.length s).
Proof.
  revert n; induction s as [|ch s IH]; intros [|n]; simpl; try reflexivity.
  now rewrite IH.
Qed.

(** ** Induction over directory trees *)

Lemma entry_ind (P : entry -> Prop) :
  (forall name f, P (File name f)) ->
  (forall name, P (Directory name None)) ->
  (forall name entries, Forall P entries -> P (Directory name (Some entries))) ->
  (forall name, P (Other name)) ->
  forall e, P e.
Proof.
  intros HFile HNone HSome HOther.
  fix IH 1.
  intros [name f | name [entries|] | name].
  - apply HFile.
  - apply HSome.
    induction entries as [|e entries IHentries]; constructor.
    + apply IH.
    + exact IHentries.
  - apply HNone.
  - apply HOther.
Qed.

(** ** The walk follows the traversal *)

Section Flatten.

Context {L : Library}.
Variable o : options.

Lemma visitDirectory_eq rel name listing st :
  visitDirectory o rel (Directory name listing) st =
  if isIgnored o (relPath rel name) then Ok st
  else processDirectory o (relPath rel name) listing
         (emit st (directoryMarker (relPath rel name))).
Proof. reflexivity. Qed.

Lemma steps_app (xs ys : list item) (st : state) :
  steps o (xs ++ ys) st = (st' <- steps o xs st ;; steps o ys st').
Proof.
  revert st; induction xs as [|it xs IH]; intros st; simpl.
  - reflexivity.
  - destruct (step o it st) as [st'|e]; simpl; [apply IH | reflexivity].
Qed.

Lemma fileLoop_steps rel entries st :
  steps o (filesOf rel entries) st = Ok (fileLoop o rel entries st).
Proof.
  revert st; induction entries as [|e entries IH]; intros st.
  - reflexivity.
  - destruct e as [name f | name listing | name]; simpl; apply IH.
Qed.

Lemma dirLoop_steps rel entries :
  Forall (fun e => forall rel st, visitDirectory o rel e st = steps o (below o rel e) st)
         entries ->
  forall st,
    dirLoop (visitDirectory o) rel entries st = steps o (flat_map (below o rel) entries) st.
Proof.
  induction 1 as [|e entries He _ IH]; intros st.
  - reflexivity.
  - cbn [dirLoop flat_map].
    rewrite steps_app, He.
    destruct (steps o (below o rel e) st) as [st'|err]; simpl; [apply IH | reflexivity].
Qed.

Lemma visitDirectory_steps e :
  forall rel st, visitDirectory o rel e st = steps o (below o rel e) st.
Proof.
  induction e as [name f | name | name entries IH | name] using entry_ind;
    intros rel st; try reflexivity.
  - rewrite visitDirectory_eq; cbn [below].
    destruct (isIgnored o (relPath rel name)); reflexivity.
  - rewrite visitDirectory_eq; cbn [below].
    destruct (isIgnored o (relPath rel name)); [reflexivity|].
    cbn [steps step bind traversalWith].
    unfold processDirectory, processDirectoryWith.
    rewrite steps_app, fileLoop_steps; cbn [bind].
    now apply dirLoop_steps.
Qed.

Lemma processDirectory_steps rel listing st :
  processDirectory o rel listing st = steps o (traversal o rel listing) st.
Proof.
  destruct listing as [entries|]; [|reflexivity].
  unfold processDirectory, processDirectoryWith, traversal, traversalWith.
  rewrite steps_app, fileLoop_steps; cbn [bind].
  apply dirLoop_steps, Forall_forall.
  intros e _; apply visitDirectory_steps.
Qed.

End Flatten.

(** ** Invariants of the walk *)

Lemma countIf_cons {A : Type} (p : A -> bool) (x : A) (xs : list A) :
  countIf p (x :: xs) = (if p x then 1 else 0) + countIf p xs.
Proof.
  unfold countIf; simpl; destruct (p x); simpl List.length; lia.
Qed.

Lemma countIf_app {A : Type} (p : A -> bool) (xs ys : list A) :
  countIf p (xs ++ ys) = countIf p xs + countIf p ys.
Proof.
  unfold countIf. rewrite filter_app, length_app. lia.
Qed.

Lemma countIf_nonneg {A : Type} (p : A -> bool) (xs : list A) : 0 <= countIf p xs.
Proof. unfold countIf; lia. Qed.

Lemma first_omitted (n : Z) : (n + 1 =? 1) = (n =? 0).
Proof.
  destruct (Z.eqb_spec (n + 1) 1), (Z.eqb_spec n 0); try reflexivity; lia.
Qed.

Section Invariants.

Context {L : Library}.
Variable o : options.

(** Every file entry adds one to exactly one counter. *)
Lemma processFile_counted r f st :
  counted (processFile o r f st) = counted st + 1.
Proof.
  unfold processFile, counted.
  destruct (classify o r f (processedFiles st)); simpl; lia.
Qed.

Lemma steps_counted items :
  forall st st', steps o items st = Ok st' ->
                 counted st' = counted st + countIf isVisitFile items.
Proof.
  induction items as [|it items IH]; intros st st' H.
  - injection H as <-. unfold countIf; simpl; lia.
  - rewrite countIf_cons.
    destruct it as [r f | r | d]; simpl in H; try discriminate.
    + apply IH in H. rewrite H, processFile_counted. cbn [isVisitFile]. lia.
    + apply IH in H. rewrite H. unfold counted; cbn [isVisitFile emit processedFiles skippedFiles omittedFiles]. lia.
Qed.

(** The text only grows, by the pieces of the trace. *)
Lemma step_output it st st' :
  step o it st = Ok st' ->
  output st' = output st +++ renderAll (emitted o it st).
Proof.
  destruct it as [r f | r | d]; simpl; intros H; try discriminate; injection H as <-.
  - unfold processFile.
    destruct (classify o r f (processedFiles st)); simpl;
      try (now rewrite append_empty_r).
    rewrite first_omitted.
    destruct (omittedFiles st =? 0); simpl; now rewrite append_empty_r.
  - now rewrite append_empty_r.
Qed.

Lemma renderAll_app ps qs :
  renderAll (ps ++ qs) = renderAll ps +++ renderAll qs.
Proof.
  induction ps as [|p ps IH]; simpl; [reflexivity|].
  now rewrite IH, append_assoc.
Qed.

Lemma steps_output items :
  forall st st', steps o items st = Ok st' ->
                 output st' = output st +++ renderAll (trace o items st).
Proof.
  induction items as [|it items IH]; intros st st' H.
  - injection H as <-. simpl. now rewrite append_empty_r.
  - simpl in H. cbn [trace].
    destruct (step o it st) as [st1|e] eqn:Hstep; [|discriminate].
    simpl in H. apply IH in H. apply step_output in Hstep.
    now rewrite H, Hstep, renderAll_app, append_assoc.
Qed.

Lemma run_inv root st :
  run o root = Ok st ->
  exists walked,
    steps o (traversal o "" root) initial = Ok walked /\
    st = (if 0 <? omittedFiles walked
          then emit walked (summaryLine (omittedFiles walked)) else walked) /\
    processedFiles st = processedFiles walked /\
    skippedFiles st = skippedFiles walked /\
    omittedFiles st = omittedFiles walked.
Proof.
  unfold run. rewrite processDirectory_steps.
  destruct (steps o (traversal o "" root) initial) as [walked|e]; [|discriminate].
  simpl. intros H; injection H as <-.
  exists walked. repeat split; destruct (0 <? omittedFiles walked); reflexivity.
Qed.

Lemma run_output root st :
  run o root = Ok st -> output st = renderAll (pieces o root st).
Proof.
  intros H. destruct (run_inv _ _ H) as (walked & Hsteps & -> & _ & _ & Hom).
  unfold pieces. rewrite renderAll_app.
  apply steps_output in Hsteps. simpl in Hsteps.
  rewrite Hom.
  destruct (0 <? omittedFiles walked) eqn:E; rewrite ?E; simpl.
  - now rewrite Hsteps, append_empty_r.
  - now rewrite Hsteps, append_empty_r.
Qed.

End Invariants.

(** ** Traversal order and counters *)

Section Order.

Context {L : Library}.
Variable o : options.

(** C8.  The walk of a directory is the traversal the specification
    describes: all the files of the directory are processed, in listing
    order, before any of its subdirectories is entered; a subdirectory's
    ignored status is tested before anything is done with it; an ignored
    subdirectory contributes no item at all (no marker, no recursion),
    any other one contributes its marker and then its own traversal.
    The pieces of the text follow that order. *)
Theorem files_before_subdirectories rel entries st :
  processDirectory o rel (Some entries) st
  = (st1 <- steps o (filesOf rel entries) st ;;
     steps o (flat_map (below o rel) entries) st1)
  /\ Forall (fun it => isVisitFile it = true) (filesOf rel entries)
  /\ (forall name sub,
         below o rel (Directory name sub)
         = if isIgnored o (relPath rel name) then []
           else EnterDirectory (relPath rel name)
                  :: traversal o (relPath rel name) sub)
  /\ (forall name f, below o rel (File name f) = [])
  /\ trace o (traversal o rel (Some entries)) st
     = trace o (filesOf rel entries) st
         ++ trace o (flat_map (below o rel) entries) (fileLoop o rel entries st).
Proof.
  split; [|split; [|split; [|split]]].
  - rewrite processDirectory_steps.
    unfold traversal, traversalWith. apply steps_app.
  - induction entries as [|e es IH]; [constructor|].
    destruct e as [name f | name sub | name]; simpl; auto.
  - reflexivity.
  - reflexivity.
  - unfold traversal, traversalWith.
    generalize (fileLoop_steps o rel entries st).
    generalize (fileLoop o rel entries st) as st1.
    generalize (flat_map (below o rel) entries) as subdirs.
    generalize (filesOf rel entries) as files.
    intros files; revert st.
    induction files as [|it files IH]; intros st subdirs st1 H.
    + injection H as <-. reflexivity.
    + cbn [app trace]. simpl in H.
      destruct (step o it st) as [st'|e]; [|discriminate].
      simpl in H. rewrite <- app_assoc. f_equal. now apply IH.
Qed.

(** C1.  At the end of a run the three counters add up to the number of
    file entries of the traversal; entering a directory changes none of
    them. *)
Theorem counters_cover_visited_files root st :
  run o root = Ok st ->
  processedFiles st + skippedFiles st + omittedFiles st
  = countIf isVisitFile (traversal o "" root)
  /\ forall dir st0,
      exists st1, step o (EnterDirectory dir) st0 = Ok st1
                  /\ processedFiles st1 = processedFiles st0
                  /\ skippedFiles st1 = skippedFiles st0
                  /\ omittedFiles st1 = omittedFiles st0.
Proof.
  intros H. split.
  - destruct (run_inv _ _ _ H) as (walked & Hsteps & _ & -> & -> & ->).
    apply steps_counted in Hsteps. unfold counted in Hsteps.
    simpl in Hsteps. lia.
  - intros dir st0. eexists. repeat split.
Qed.

End Order.

Lemma counters_cover_visited_files_witness :
  exists st,
    run (L := Sample.lib) Sample.defaults Sample.scenario = Ok st
    /\ processedFiles st = 2 /\ skippedFiles st = 1 /\ omittedFiles st = 0
    /\ processedFiles st + skippedFiles st + omittedFiles st
       = countIf isVisitFile (traversal (L := Sample.lib) Sample.defaults "" Sample.scenario).
Proof.
  eexists. split; [reflexivity|].
  split; [reflexivity|]. split; [reflexivity|]. split; [reflexivity|].
  apply (counters_cover_visited_files (L := Sample.lib) Sample.defaults Sample.scenario).
  reflexivity.
Defined.

(** ** The file limit *)

Section Cutoff.

Context {L : Library}.
Variable o : options.

(** Whether a check skips a file does not depend on the counters. *)
Lemma isSkip_classify r f p q :
  isSkip (classify o r f p) = isSkip (classify o r f q).
Proof.
  unfold classify.
  destruct (stat f) as [size|]; [|reflexivity].
  destruct (negb (includeAll o) && JS.gt size (thresholdBytes o) && negb (truncate o));
    [reflexivity|].
  destruct (if negb (includeAll o) then isBinaryFile f else Some false) as [[|]|];
    try reflexivity.
  destruct (isIgnored o r); [reflexivity|].
  destruct (readFile f) as [content|]; [|reflexivity].
  destruct (JS.truthy (maxFiles o) && (maxFiles o <=? p)),
           (JS.truthy (maxFiles o) && (maxFiles o <=? q)),
           (truncate o && JS.gt size (thresholdBytes o)); reflexivity.
Qed.

Lemma classify_skipped r f st :
  eligible o r f = false -> processFile o r f st = skip st.
Proof.
  unfold eligible, processFile. rewrite (isSkip_classify r f 0 (processedFiles st)).
  destruct (classify o r f (processedFiles st)); simpl; intros H;
    reflexivity || discriminate.
Qed.

(** An eligible file is omitted exactly when the limit is set and reached. *)
Lemma classify_eligible r f p :
  eligible o r f = true ->
  if JS.truthy (maxFiles o) && (maxFiles o <=? p)
  then exists size, classify o r f p = Omit size
  else exists size content,
      classify o r f p = IncludeFull size content
      \/ classify o r f p = IncludeTruncated size content.
Proof.
  unfold eligible. rewrite (isSkip_classify r f 0 p). unfold classify.
  destruct (stat f) as [size|]; [|discriminate].
  destruct (negb (includeAll o) && JS.gt size (thresholdBytes o) && negb (truncate o));
    [discriminate|].
  destruct (if negb (includeAll o) then isBinaryFile f else Some false) as [[|]|];
    try discriminate.
  destruct (isIgnored o r); [discriminate|].
  destruct (readFile f) as [content|]; [|discriminate].
  destruct (JS.truthy (maxFiles o) && (maxFiles o <=? p)); intros _.
  - now exists size.
  - destruct (truncate o && JS.gt size (thresholdBytes o)); eauto.
Qed.

Hypothesis limit : 0 < maxFiles o.

Lemma limit_test p :
  JS.truthy (maxFiles o) && (maxFiles o <=? p) = (maxFiles o <=? p).
Proof.
  unfold JS.truthy. destruct (Z.eqb_spec (maxFiles o) 0); [lia | reflexivity].
Qed.

(** The counters and the fragments of the trace, in terms of the number
    of eligible files met. *)
Lemma steps_limit items :
  forall st st',
    steps o items st = Ok st' ->
    processedFiles st <= maxFiles o ->
    let reached := processedFiles st + countIf (eligibleItem o) items in
    processedFiles st' = Z.min reached (maxFiles o)
    /\ omittedFiles st' = omittedFiles st + (reached - Z.min reached (maxFiles o))
    /\ countIf isFragment (trace o items st) = processedFiles st' - processedFiles st.
Proof.
  induction items as [|it items IH]; intros st st' H Hle.
  - injection H as <-. unfold countIf; simpl. lia.
  - cbn zeta. rewrite countIf_cons.
    pose proof (countIf_nonneg (eligibleItem o) items) as Hnn.
    destruct it as [r f | r | d]; cbn [steps step bind] in H; try discriminate;
      cbn [trace step eligibleItem].
    + rewrite countIf_app.
      destruct (eligible o r f) eqn:El.
      * pose proof (classify_eligible r f (processedFiles st) El) as Hc.
        rewrite limit_test in Hc.
        unfold processFile in H |- *. cbn [emitted].
        destruct (Z.leb_spec (maxFiles o) (processedFiles st)).
        -- destruct Hc as (size & Hc). rewrite Hc in H |- *. cbn [settle] in H |- *.
           apply IH in H; [|simpl; lia]. cbn zeta in H. simpl in H.
           destruct H as (Hp & Ho & Hf).
           assert (countIf isFragment
                     (if omittedFiles st =? 0 then [Cutoff r size] else []) = 0)
             by (destruct (omittedFiles st =? 0); reflexivity).
           lia.
        -- destruct Hc as (size & content & [Hc | Hc]); rewrite Hc in H |- *;
             cbn [settle] in H |- *;
             (apply IH in H; [|simpl; lia]); cbn zeta in H; simpl in H;
             destruct H as (Hp & Ho & Hf);
             change (countIf isFragment [Fragment r size content]) with 1; lia.
      * rewrite (classify_skipped r f st El) in H |- *.
        assert (countIf isFragment (emitted o (VisitFile r f) st) = 0) as Hz.
        { unfold eligible in El. rewrite (isSkip_classify r f 0 (processedFiles st)) in El.
          cbn [emitted].
          destruct (classify o r f (processedFiles st)); try discriminate; reflexivity. }
        apply IH in H; [|simpl; lia]. cbn zeta in H. simpl in H. lia.
    + apply IH in H; [|simpl; lia]. cbn zeta in H. simpl in H.
      rewrite countIf_app.
      change (countIf isFragment (emitted o (EnterDirectory r) st)) with 0.
      lia.
Qed.

End Cutoff.

Section CutoffClaims.

Context {L : Library}.
Variable o : options.

Lemma pieces_fragments root st :
  countIf isFragment (pieces o root st)
  = countIf isFragment (trace o (traversal o "" root) initial).
Proof.
  unfold pieces. rewrite countIf_app.
  destruct (0 <? omittedFiles st); unfold countIf; simpl; lia.
Qed.

(** C2.  With a limit of [maxFiles o] files, the text of a run is the
    rendering of its pieces, of which as many are file fragments as files
    were processed, at most [maxFiles o]; when more files are eligible
    than the limit allows, the surplus is what [omittedFiles] counts; the
    walk goes on over every entry after the limit is reached (each file
    entry of the whole traversal is counted once); and when files were
    omitted the text of the walk is followed by two line feeds and the
    line [Total <omittedFiles> files were omitted due to the maxFiles
    limit], while nothing follows it when none was. *)
Theorem max_files_cutoff root st :
  0 < maxFiles o ->
  run o root = Ok st ->
  let eligibleFiles := countIf (eligibleItem o) (traversal o "" root) in
  output st = renderAll (pieces o root st)
  /\ countIf isFragment (pieces o root st) = processedFiles st
  /\ processedFiles st = Z.min eligibleFiles (maxFiles o)
  /\ processedFiles st <= maxFiles o
  /\ (maxFiles o < eligibleFiles -> omittedFiles st = eligibleFiles - maxFiles o)
  /\ counted st = countIf isVisitFile (traversal o "" root)
  /\ (omittedFiles st <> 0 ->
      pieces o root st
      = trace o (traversal o "" root) initial ++ [Summary (omittedFiles st)])
  /\ (forall r size content,
         render (Fragment r size content)
         = JS.nl +++ "**** File: " +++ r +++ ", size: " +++ formatFileSize size +++ JS.nl
             +++ JS.nl +++ content +++ JS.nl)
  /\ (forall n,
         render (Summary n)
         = JS.nl +++ JS.nl +++ "Total " +++ numberToString (inject_Z n)
             +++ " files were omitted due to the maxFiles limit" +++ JS.nl)
  /\ exists walked,
      processDirectory o "" root initial = Ok walked
      /\ processedFiles st = processedFiles walked
      /\ skippedFiles st = skippedFiles walked
      /\ omittedFiles st = omittedFiles walked
      /\ 0 <= omittedFiles st
      /\ output st
         = if omittedFiles st =? 0
           then output walked
           else output walked +++ JS.nl +++ JS.nl +++ "Total "
                  +++ numberToString (inject_Z (omittedFiles st))
                  +++ " files were omitted due to the maxFiles limit" +++ JS.nl.
Proof.
  intros limit H eligibleFiles.
  pose proof (run_output _ _ _ H) as Hout.
  destruct (run_inv _ _ _ H) as (walked & Hsteps & Hst & Hp & Hs & Ho).
  pose proof (steps_counted _ _ _ _ Hsteps) as Hcount.
  pose proof Hsteps as Hwalk. rewrite <- processDirectory_steps in Hwalk.
  apply (steps_limit o limit) in Hsteps; [|simpl; lia].
  cbn zeta in Hsteps. simpl in Hsteps. fold eligibleFiles in Hsteps.
  destruct Hsteps as (Hproc & Hom & Hfrag).
  pose proof (countIf_nonneg (eligibleItem o) (traversal o "" root)) as Hnn.
  fold eligibleFiles in Hnn.
  split; [exact Hout|].
  split; [rewrite pieces_fragments; lia|].
  split; [lia|]. split; [lia|]. split; [lia|].
  split; [unfold counted in *; simpl in Hcount; lia|].
  split.
  { intros Hne. unfold pieces.
    destruct (Z.ltb_spec 0 (omittedFiles st)); [reflexivity | lia]. }
  split.
  { intros r size content. unfold render, fragment, fileHeader.
    now rewrite !append_assoc. }
  split.
  { intros n. unfold render, summaryLine. now rewrite !append_assoc. }
  exists walked.
  split; [exact Hwalk|]. split; [exact Hp|]. split; [exact Hs|]. split; [exact Ho|].
  split; [lia|].
  rewrite Ho, Hst.
  destruct (Z.ltb_spec 0 (omittedFiles walked)), (Z.eqb_spec (omittedFiles walked) 0);
    try lia; [|reflexivity].
  unfold emit, summaryLine. cbn [output omittedFiles]. now rewrite !append_assoc.
Qed.

Lemma steps_cutoff items :
  forall st st',
    steps o items st = Ok st' ->
    omittedFiles st' = omittedFiles st + Z.of_nat (List.length (omittedList o items st))
    /\ (0 <= omittedFiles st ->
        filter isCutoff (trace o items st)
        = if omittedFiles st =? 0
          then map cutoffOf (firstn 1 (omittedList o items st)) else []).
Proof.
  induction items as [|it items IH]; intros st st' H.
  - injection H as <-. simpl. split; [lia|]. now destruct (omittedFiles st =? 0).
  - cbn [steps bind] in H. cbn [trace omittedList].
    destruct (step o it st) as [st1|e] eqn:Hstep; [|discriminate]. cbn [bind] in H.
    destruct (IH _ _ H) as (Hcount & Hmark). clear IH H.
    rewrite filter_app, length_app.
    destruct it as [r f | r | d]; cbn [step] in Hstep; try discriminate;
      injection Hstep as <-.
    + unfold processFile in *. cbn [emitted].
      destruct (classify o r f (processedFiles st)) as [ | | | |size|size c|size c];
        cbn [settle skip omittedFiles app filter isCutoff List.length] in *;
        try (split; [lia | exact Hmark]).
      split; [lia|]. intros Hnn.
      rewrite Hmark by lia.
      destruct (Z.eqb_spec (omittedFiles st + 1) 0); [lia|].
      destruct (omittedFiles st =? 0); reflexivity.
    + cbn [emitted emit omittedFiles app filter isCutoff List.length] in *.
      split; [lia | exact Hmark].
Qed.

End CutoffClaims.

Lemma max_files_cutoff_witness :
  exists st,
    0 < maxFiles Sample.limitOne
    /\ run (L := Sample.lib) Sample.limitOne Sample.scenario = Ok st
    /\ countIf (eligibleItem (L := Sample.lib) Sample.limitOne)
               (traversal (L := Sample.lib) Sample.limitOne "" Sample.scenario) = 2
    /\ processedFiles st = 1 /\ omittedFiles st = 1
    /\ output st
       = JS.nl +++ "**** File: a.txt, size: 5 B" +++ JS.nl +++ JS.nl +++ "hello" +++ JS.nl
           +++ JS.nl +++ "**** Directory: sub"
           +++ JS.nl +++ "**** File: sub/c.txt, size: 5 B" +++ JS.nl
           +++ "This file and all following files were omitted due to max-files limit."
           +++ JS.nl
           +++ JS.nl +++ JS.nl
           +++ "Total 1 files were omitted due to the maxFiles limit" +++ JS.nl
    /\ countIf isFragment (pieces (L := Sample.lib) Sample.limitOne Sample.scenario st)
       = processedFiles st.
Proof.
  eexists.
  split; [reflexivity|]. split; [reflexivity|]. split; [reflexivity|].
  split; [reflexivity|]. split; [reflexivity|]. split; [reflexivity|].
  apply (max_files_cutoff (L := Sample.lib) Sample.limitOne Sample.scenario);
    reflexivity.
Defined.

(** ** The cutoff marker *)

Section Marker.

Context {L : Library}.
Variable o : options.


Lemma classify_omit_read r f p size :
  classify o r f p = Omit size ->
  stat f = Some size
  /\ (exists content, readFile f = Some content)
  /\ JS.truthy (maxFiles o) = true /\ maxFiles o <= p.
Proof.
  unfold classify.
  destruct (stat f) as [size'|]; [|discriminate].
  destruct (negb (includeAll o) && JS.gt size' (thresholdBytes o) && negb (truncate o));
    [discriminate|].
  destruct (if negb (includeAll o) then isBinaryFile f else Some false) as [[|]|];
    try discriminate.
  destruct (isIgnored o r); [discriminate|].
  destruct (readFile f) as [content|]; [|discriminate].
  destruct (JS.truthy (maxFiles o)) eqn:Ht; cbn [andb].
  - destruct (Z.leb_spec (maxFiles o) p).
    + intros Heq; injection Heq as <-. repeat split; eauto.
    + destruct (truncate o && JS.gt size' (thresholdBytes o)); discriminate.
  - destruct (truncate o && JS.gt size' (thresholdBytes o)); discriminate.
Qed.


End Marker.


(** ** Directory markers *)

Section Markers.

Context {L : Library}.
Variable o : options.

Lemma steps_marker dir items :
  forall st st',
    steps o items st = Ok st' ->
    In (EnterDirectory dir) items ->
    In (DirMarker dir) (trace o items st).
Proof.
  induction items as [|it items IH]; intros st st' H Hin; [contradiction|].
  cbn [steps bind] in H. cbn [trace].
  destruct (step o it st) as [st1|e] eqn:Hstep; [|discriminate]. cbn [bind] in H.
  apply in_or_app. destruct Hin as [-> | Hin].
  - left. now left.
  - right. eapply IH; eassumption.
Qed.

Lemma renderAll_in p ps :
  In p ps -> exists before after, renderAll ps = before +++ render p +++ after.
Proof.
  intros Hin. apply in_split in Hin. destruct Hin as (l1 & l2 & ->).
  exists (renderAll l1), (renderAll l2).
  now rewrite renderAll_app.
Qed.

(** Membership in a traversal passes from a subdirectory to its parent. *)
Lemma below_in_traversal rel entries e it :
  In e entries -> In it (below o rel e) -> In it (traversal o rel (Some entries)).
Proof.
  intros He Hit. unfold traversal, traversalWith.
  apply in_or_app. right. apply in_flat_map. eauto.
Qed.

End Markers.

(** ** Failure to list a directory *)

Section Failure.

Context {L : Library}.
Variable o : options.

Lemma steps_ok items :
  (forall dir, ~ In (ListingFails dir) items) ->
  forall st, exists st', steps o items st = Ok st'.
Proof.
  induction items as [|it items IH]; intros Hno st.
  - now exists st.
  - assert (forall dir, ~ In (ListingFails dir) items) as Hno'
        by (intros dir Hin; apply (Hno dir); now right).
    destruct it as [r f | r | d]; cbn [steps step bind].
    + apply IH, Hno'.
    + apply IH, Hno'.
    + exfalso. apply (Hno d). now left.
Qed.

Lemma steps_throw items dir :
  In (ListingFails dir) items ->
  forall st, exists dir', In (ListingFails dir') items
                          /\ steps o items st = Throw (ReaddirError dir').
Proof.
  induction items as [|it items IH]; intros Hin st; [contradiction|].
  destruct it as [r f | r | d]; cbn [steps step bind].
  - destruct Hin as [Heq | Hin]; [discriminate|].
    destruct (IH Hin (processFile o r f st)) as (dir' & Hin' & Hthrow).
    exists dir'. split; [now right | exact Hthrow].
  - destruct Hin as [Heq | Hin]; [discriminate|].
    destruct (IH Hin (emit st (directoryMarker r))) as (dir' & Hin' & Hthrow).
    exists dir'. split; [now right | exact Hthrow].
  - exists d. split; [now left | reflexivity].
Qed.

Lemma run_steps root :
  run o root
  = (st <- steps o (traversal o "" root) initial ;;
     Ok (if 0 <? omittedFiles st then emit st (summaryLine (omittedFiles st)) else st)).
Proof.
  unfold run. now rewrite processDirectory_steps.
Qed.

(** C6, as the code has it.  A run returns exactly when every directory
    of the traversal can be listed; a directory that cannot be listed,
    the root or any subdirectory that is entered, makes the whole run
    throw, the error being that of a directory of the traversal.  Only a
    subdirectory that is ignored, hence never entered, cannot fail a run. *)
Theorem listing_failure_aborts_run root :
  ((forall dir, ~ In (ListingFails dir) (traversal o "" root))
   <-> exists st, run o root = Ok st)
  /\ (forall dir, In (ListingFails dir) (traversal o "" root) ->
                  exists dir', In (ListingFails dir') (traversal o "" root)
                               /\ run o root = Throw (ReaddirError dir')
                               /\ processFiles o root = Throw (ReaddirError dir'))
  /\ (forall rel name,
         below o rel (Directory name None)
         = if isIgnored o (relPath rel name) then []
           else [EnterDirectory (relPath rel name); ListingFails (relPath rel name)])
  /\ (forall rel entries e it,
         In e entries -> In it (below o rel e) -> In it (traversal o rel (Some entries))).
Proof.
  split; [split|split; [|split]].
  - intros Hno. rewrite run_steps.
    destruct (steps_ok _ Hno initial) as (st & ->). cbn [bind]. eauto.
  - intros (st & H) dir Hin. rewrite run_steps in H.
    destruct (steps_throw _ _ Hin initial) as (dir' & _ & Hthrow).
    rewrite Hthrow in H. discriminate.
  - intros dir Hin.
    destruct (steps_throw _ _ Hin initial) as (dir' & Hin' & Hthrow).
    exists dir'. split; [exact Hin'|].
    unfold processFiles. rewrite run_steps, Hthrow. split; reflexivity.
  - intros rel name. cbn [below traversalWith].
    destruct (isIgnored o (relPath rel name)); reflexivity.
  - intros rel entries e it. apply below_in_traversal.
Qed.

End Failure.

Lemma listing_failure_aborts_run_witness :
  (forall dir, ~ In (ListingFails dir)
                 (traversal (L := Sample.lib) Sample.defaults "" Sample.scenario))
  /\ exists st, run (L := Sample.lib) Sample.defaults Sample.scenario = Ok st.
Proof.
  assert (forall dir, ~ In (ListingFails dir)
                        (traversal (L := Sample.lib) Sample.defaults "" Sample.scenario))
    as Hno.
  { intros dir Hin. simpl in Hin.
    repeat (destruct Hin as [Heq | Hin]; [discriminate|]). exact Hin. }
  split; [exact Hno|].
  apply (listing_failure_aborts_run (L := Sample.lib) Sample.defaults Sample.scenario).
  exact Hno.
Defined.

(** The root is listed, one subdirectory is not: the run throws, where
    the specification has it continue with what remains. *)
Lemma unlistable_subdirectory_fails_run :
  run (L := Sample.lib) Sample.defaults Sample.brokenSub = Throw (ReaddirError "sub")
  /\ processFiles (L := Sample.lib) Sample.defaults Sample.brokenSub
     = Throw (ReaddirError "sub")
  /\ ~ exists st, run (L := Sample.lib) Sample.defaults Sample.brokenSub = Ok st.
Proof.
  split; [reflexivity|]. split; [reflexivity|].
  intros (st & H). discriminate.
Qed.

(** ** Ignored directories *)

Section Pruning.

Context {L : Library}.
Variable o : options.

Lemma isIgnored_matching relativePath patterns pattern :
  ignorePatterns o = Some patterns ->
  In pattern patterns ->
  minimatch relativePath pattern = true ->
  isIgnored o relativePath = true.
Proof.
  intros Hpat Hin Hmatch. unfold isIgnored. rewrite Hpat.
  apply existsb_exists. eauto.
Qed.

Lemma filesOf_app rel xs ys :
  filesOf rel (xs ++ ys) = filesOf rel xs ++ filesOf rel ys.
Proof. unfold filesOf. apply flat_map_app. Qed.



End Pruning.


(** The scenario of the specification as the walker runs it.  The
    pattern [sub/**] matches the paths below [sub], not [sub] itself: with
    a matcher that answers so, the directory is entered and gets its
    marker, and [sub/c.txt] is counted as skipped. *)
Lemma scenario_subtree_entered (L : Library) :
  minimatch "sub" "sub/**" = false ->
  minimatch "a.txt" "sub/**" = false ->
  minimatch "sub/c.txt" "sub/**" = true ->
  run Glob.ignoreBelowSub Sample.scenario
  = Ok (mkState (fragment "a.txt" 5 "hello" +++ JS.nl +++ "**** Directory: sub") 1 2 0).
Proof.
  intros Hsub Ha Hc.
  unfold run, processDirectory, processDirectoryWith, Sample.scenario.
  cbn [fileLoop fold_left fileLoopStep dirLoop bind visitDirectory].
  change (relPath "" "sub") with "sub"%string.
  change (relPath "" "a.txt") with "a.txt"%string.
  unfold isIgnored at 1. cbn [Glob.ignoreBelowSub ignorePatterns existsb].
  rewrite Hsub. cbn [orb].
  unfold processDirectoryWith.
  cbn [fileLoop fold_left fileLoopStep dirLoop bind].
  change (relPath "sub" "c.txt") with "sub/c.txt"%string.
  unfold processFile, classify, isIgnored.
  cbn [stat isBinaryFile readFile Sample.text Sample.binary includeAll truncate
       Glob.ignoreBelowSub ignorePatterns maxFiles negb andb existsb processedFiles
       initial settle skip emit].
  rewrite Ha, Hc.
  reflexivity.
Qed.


(** ** Classification of a file *)

Lemma toInteger_integral (q : Q) (T : Z) :
  (q == inject_Z T)%Q -> JS.toInteger q = T.
Proof.
  unfold Qeq, JS.toInteger, inject_Z. cbn [Qnum Qden]. intros H.
  rewrite Z.mul_1_r in H. rewrite H. apply Z.quot_mul. discriminate.
Qed.

Lemma slice0_length (content : string) (e : Q) :
  0 <= JS.toInteger e ->
  Z.of_nat (String.length (JS.slice0 content e))
  = Z.min (JS.toInteger e) (Z.of_nat (String.length content)).
Proof.
  intros Hnn. unfold JS.slice0.
  destruct (Z.ltb_spec (JS.toInteger e) 0); [lia|].
  rewrite length_substring_0. lia.
Qed.

Section Classification.

Context {L : Library}.
Variable o : options.

Lemma skip_settled r f st :
  isSkip (classify o r f (processedFiles st)) = true -> processFile o r f st = skip st.
Proof.
  unfold processFile.
  destruct (classify o r f (processedFiles st)); simpl; intros H;
    reflexivity || discriminate.
Qed.

(** C5, as the code has it.  With [includeAll] off, a file whose size is
    known goes through the checks in this order: the size check, which
    skips an oversized file when truncation is off, whether or not the
    file is binary or ignored; then the binary probe, which skips a binary
    file whether or not it is ignored; then the ignore patterns.  A file
    both binary and oversized is thus skipped as large when truncation is
    off, and as binary when truncation is on.  Whatever the check that
    skips it, the file adds one to [skippedFiles] and nothing else. *)
Theorem checks_order r f p size :
  includeAll o = false ->
  stat f = Some size ->
  (JS.gt size (thresholdBytes o) = true -> truncate o = false ->
   classify o r f p = SkipLarge)
  /\ (JS.gt size (thresholdBytes o) && negb (truncate o) = false ->
      isBinaryFile f = Some true ->
      classify o r f p = SkipBinary)
  /\ (JS.gt size (thresholdBytes o) && negb (truncate o) = false ->
      isBinaryFile f = Some false ->
      isIgnored o r = true ->
      classify o r f p = SkipIgnored)
  /\ (forall st, isSkip (classify o r f (processedFiles st)) = true ->
                 processFile o r f st = skip st).
Proof.
  intros Hall Hstat.
  split; [|split; [|split]]; [| | |intros st; apply skip_settled];
    unfold classify; rewrite Hstat, Hall; cbn [negb andb].
  - intros -> ->. reflexivity.
  - intros -> ->. reflexivity.
  - intros -> -> ->. reflexivity.
Qed.

(** C3, as the code has it.  A file whose size exceeds the threshold is
    skipped as large when [includeAll] and truncation are both off.  With
    truncation on, such a file, when it is not binary (or [includeAll] is
    on), not ignored, readable and met before the file limit is reached,
    is included truncated: the content of its fragment is the slice of the
    decoded text up to the threshold, counted in code units of the text,
    followed by the truncation note; the slice is the whole text when the
    text is shorter, and has exactly as many units as the threshold has
    bytes when the threshold is a whole number within the text's length. *)
Theorem oversized_file_policy r f p size :
  stat f = Some size ->
  JS.gt size (thresholdBytes o) = true ->
  (includeAll o = false -> truncate o = false -> classify o r f p = SkipLarge)
  /\ (truncate o = true ->
      includeAll o = true \/ isBinaryFile f = Some false ->
      isIgnored o r = false ->
      JS.truthy (maxFiles o) && (maxFiles o <=? p) = false ->
      forall content,
        readFile f = Some content ->
        classify o r f p
        = IncludeTruncated size (JS.slice0 content (thresholdBytes o) +++ truncationNote o)
        /\ (forall st, processedFiles st = p ->
                       output (processFile o r f st)
                       = output st +++ fragment r size
                                    (JS.slice0 content (thresholdBytes o)
                                       +++ truncationNote o))
        /\ (0 <= JS.toInteger (thresholdBytes o) ->
            Z.of_nat (String.length (JS.slice0 content (thresholdBytes o)))
            = Z.min (JS.toInteger (thresholdBytes o)) (Z.of_nat (String.length content)))
        /\ (forall T, 0 <= T <= Z.of_nat (String.length content) ->
                      (thresholdBytes o == inject_Z T)%Q ->
                      Z.of_nat (String.length (JS.slice0 content (thresholdBytes o))) = T)).
Proof.
  intros Hstat Hgt. split.
  - intros Hall Htr. unfold classify. now rewrite Hstat, Hall, Hgt, Htr.
  - intros Htr Hbin Hign Hlim content Hread.
    assert (classify o r f p
            = IncludeTruncated size
                (JS.slice0 content (thresholdBytes o) +++ truncationNote o)) as Hc.
    { unfold classify. rewrite Hstat, Hgt, Htr, Hign, Hread, Hlim.
      rewrite andb_false_r. cbn [andb].
      destruct Hbin as [-> | ->]; [reflexivity|].
      now destruct (negb (includeAll o)). }
    split; [exact Hc|]. split; [|split].
    + intros st <-. unfold processFile. now rewrite Hc.
    + apply slice0_length.
    + intros T HT Heq. rewrite slice0_length; rewrite (toInteger_integral _ _ Heq); lia.
Qed.

End Classification.

Lemma checks_order_witness :
  includeAll Sample.defaults = false
  /\ stat Sample.bigBinary = Some 2097152
  /\ classify (L := Sample.lib) Sample.defaults "big.bin" Sample.bigBinary 0 = SkipLarge.
Proof.
  split; [reflexivity|]. split; [reflexivity|].
  apply (checks_order (L := Sample.lib) Sample.defaults "big.bin" Sample.bigBinary 0 2097152);
    reflexivity.
Defined.

(** A file both binary and oversized leaves through the size check, and a
    binary file that is ignored leaves through the binary check: the
    ignore check does not come first, nor the binary check before the size
    check. *)
Lemma size_check_comes_first :
  classify (L := Sample.lib) Sample.defaults "big.bin" Sample.bigBinary 0 = SkipLarge
  /\ classify (L := Sample.lib) Sample.defaults "big.bin" Sample.bigBinary 0 <> SkipBinary
  /\ isIgnored (L := Sample.lib) Sample.ignoreSub "sub" = true
  /\ classify (L := Sample.lib) Sample.ignoreSub "sub" (Sample.binary 4 "%PDF") 0 = SkipBinary
  /\ classify (L := Sample.lib) Sample.ignoreSub "sub" (Sample.binary 4 "%PDF") 0
     <> SkipIgnored.
Proof.
  repeat split; try reflexivity; vm_compute; discriminate.
Qed.

Lemma oversized_file_policy_witness :
  stat (Sample.text 10 Sample.accents) = Some 10
  /\ JS.gt 10 (thresholdBytes Sample.sevenBytes) = true
  /\ classify (L := Sample.lib) Sample.sevenBytes "e.txt" (Sample.text 10 Sample.accents) 0
     = IncludeTruncated 10 (Sample.accents +++ truncationNote (L := Sample.lib) Sample.sevenBytes).
Proof.
  split; [reflexivity|]. split; [reflexivity|].
  exact (proj1 (proj2 (oversized_file_policy (L := Sample.lib) Sample.sevenBytes "e.txt"
                         (Sample.text 10 Sample.accents) 0 10 eq_refl eq_refl)
                 eq_refl (or_intror eq_refl) eq_refl eq_refl Sample.accents eq_refl)).
Defined.

(** With truncation on, an oversized binary file is skipped all the same;
    and for a text of ten bytes on disk that decodes to five code units,
    under a threshold of seven bytes, the fragment keeps five units, not
    seven. *)
Lemma truncation_counts_code_units :
  classify (L := Sample.lib) Sample.sevenBytes "b.bin" (Sample.binary 10 "%PDF-1.4") 0
  = SkipBinary
  /\
  ~ (forall (o : options) (r : string) (f : fileInfo) (size : Z) (content : string),
        stat f = Some size ->
        JS.gt size (thresholdBytes o) = true ->
        truncate o = true ->
        includeAll o = false ->
        isBinaryFile f = Some false ->
        ignorePatterns o = None ->
        maxFiles o = 0 ->
        readFile f = Some content ->
        exists kept,
          classify (L := Sample.lib) o r f 0
          = IncludeTruncated size (kept +++ truncationNote (L := Sample.lib) o)
          /\ Z.of_nat (String.length kept) = JS.toInteger (thresholdBytes o)).
Proof.
  split; [reflexivity|].
  intros H.
  destruct (H Sample.sevenBytes "e.txt"%string (Sample.text 10 Sample.accents) 10
              Sample.accents eq_refl eq_refl eq_refl eq_refl eq_refl eq_refl eq_refl eq_refl)
    as (kept & Hc & Hlen).
  change (classify (L := Sample.lib) Sample.sevenBytes "e.txt"
            (Sample.text 10 Sample.accents) 0)
    with (IncludeTruncated 10
            (Sample.accents +++ truncationNote (L := Sample.lib) Sample.sevenBytes)) in Hc.
  injection Hc as Hc.
  apply (f_equal String.length) in Hc.
  rewrite !length_append in Hc.
  change (JS.toInteger (thresholdBytes Sample.sevenBytes)) with 7 in Hlen.
  cbn [String.length] in Hc.
  lia.
Qed.

(** ** The delimiter format *)

(** A file may be named like the end of a header followed by content and
    the start of another header (a name may hold any character but a
    slash and a null).  One such file then yields the very text that two
    plain files yield, so no parser of the text tells the two runs apart,
    whatever the library functions are. *)
Lemma delimiter_is_ambiguous :
  ~ exists (L : Library) (parse : string -> list (string * Z)),
      forall o root st,
        run o root = Ok st -> parse (output st) = pairsOf (pieces o root st).
Proof.
  intros (L & parse & H).
  set (forged := ("q, size: " +++ formatFileSize 1 +++ JS.nl +++ JS.nl +++ "z" +++ JS.nl
                    +++ JS.nl +++ "**** File: r")).
  set (one := Some [ File forged (Sample.text 1 "y") ]).
  set (two := Some [ File "q" (Sample.text 1 "z"); File "r" (Sample.text 1 "y") ]).
  pose proof (H Sample.defaults one (mkState (fragment forged 1 "y") 1 0 0) eq_refl) as H1.
  pose proof (H Sample.defaults two
                (mkState (fragment "q" 1 "z" +++ fragment "r" 1 "y") 2 0 0) eq_refl) as H2.
  change (pairsOf (pieces Sample.defaults one (mkState (fragment forged 1 "y") 1 0 0)))
    with [(forged, 1)] in H1.
  change (pairsOf (pieces Sample.defaults two
                     (mkState (fragment "q" 1 "z" +++ fragment "r" 1 "y") 2 0 0)))
    with [("q"%string, 1); ("r"%string, 1)] in H2.
  cbn [output] in H1, H2.
  assert (fragment forged 1 "y" = fragment "q" 1 "z" +++ fragment "r" 1 "y") as Heq.
  { unfold fragment, fileHeader, forged.
    rewrite !append_assoc. cbn [String.append]. rewrite ?append_assoc. reflexivity. }
  rewrite Heq, H2 in H1. discriminate.
Qed.

(** Lines of a concatenation. *)

Lemma lines_nonempty (s : string) : exists l ls, lines s = l :: ls.
Proof.
  induction s as [|c s (l & ls & IH)]; cbn [lines]; [eauto|].
  destruct (Ascii.eqb c (ascii_of_nat 10)); [eauto|].
  rewrite IH. eauto.
Qed.

Lemma lines_app (a t : string) (rest : list string) :
  lines t = EmptyString :: rest -> lines (a +++ t) = lines a ++ rest.
Proof.
  intros Ht. induction a as [|c a IH]; cbn [String.append lines].
  - exact Ht.
  - destruct (Ascii.eqb c (ascii_of_nat 10)).
    + now rewrite IH.
    + rewrite IH. destruct (lines_nonempty a) as (l & ls & ->). reflexivity.
Qed.

Lemma lines_nl (a b : string) : lines (a +++ JS.nl +++ b) = lines a ++ lines b.
Proof. apply lines_app. reflexivity. Qed.

Lemma lines_single (a : string) : singleLine a = true -> lines a = [a].
Proof.
  induction a as [|c a IH]; cbn [singleLine lines]; [reflexivity|].
  destruct (Ascii.eqb c (ascii_of_nat 10)); [discriminate|].
  cbn [negb andb]. intros H. now rewrite (IH H).
Qed.

Lemma singleLine_app (a b : string) :
  singleLine (a +++ b) = singleLine a && singleLine b.
Proof.
  induction a as [|c a IH]; cbn [String.append singleLine]; [reflexivity|].
  now rewrite IH, andb_assoc.
Qed.

Lemma stripPrefix_app (p x : string) : stripPrefix p (p +++ x) = Some x.
Proof.
  induction p as [|c p IH]; cbn [String.append stripPrefix]; [reflexivity|].
  now rewrite Ascii.eqb_refl.
Qed.

Lemma flat_map_flat_map {A B C : Type} (f : B -> list C) (g : A -> list B) (xs : list A) :
  flat_map f (flat_map g xs) = flat_map (fun x => flat_map f (g x)) xs.
Proof.
  induction xs as [|x xs IH]; cbn [flat_map]; [reflexivity|].
  now rewrite flat_map_app, IH.
Qed.

Lemma lines_after_nl (x : string) : lines (JS.nl +++ x) = EmptyString :: lines x.
Proof. reflexivity. Qed.

Lemma lines_before_nl (x : string) : lines (x +++ JS.nl) = lines x ++ [EmptyString].
Proof. apply lines_app. reflexivity. Qed.

Section ReadingBack.

Context {L : Library}.

Lemma render_lines (p : piece) : exists rest, lines (render p) = EmptyString :: rest.
Proof.
  destruct p as [r s c | r s | r | n]; eexists;
    unfold render, fragment, cutoffMarker, fileHeader, directoryMarker, summaryLine;
    rewrite ?append_assoc; apply lines_after_nl.
Qed.

Lemma lines_renderAll (ps : list piece) :
  lines (renderAll ps) = EmptyString :: flat_map (fun p => tl (lines (render p))) ps.
Proof.
  induction ps as [|p ps IH]; [reflexivity|].
  cbn [renderAll fold_right flat_map].
  change (fold_right (fun p text => render p +++ text) EmptyString ps) with (renderAll ps).
  rewrite (lines_app _ _ _ IH).
  destruct (render_lines p) as (rest & ->). reflexivity.
Qed.

Lemma fileHeaders_renderAll (ps : list piece) :
  fileHeaders (renderAll ps)
  = flat_map (fun p => flat_map headerLine (tl (lines (render p)))) ps.
Proof.
  unfold fileHeaders. rewrite lines_renderAll.
  cbn [flat_map]. change (headerLine EmptyString) with (@nil string).
  cbn [app]. apply flat_map_flat_map.
Qed.

Lemma header_single (r : string) (s : Z) :
  singleLine r = true -> singleLine (formatFileSize s) = true ->
  lines ("**** File: " +++ headerText (r, s)) = ["**** File: " +++ headerText (r, s)].
Proof.
  intros Hr Hs. apply lines_single.
  unfold headerText. cbn [fst snd].
  rewrite !singleLine_app, Hr, Hs. reflexivity.
Qed.

Lemma headerLine_header (h : string) : headerLine ("**** File: " +++ h) = [h].
Proof. unfold headerLine. now rewrite stripPrefix_app. Qed.

Lemma clean_headers (p : piece) :
  clean p = true -> flat_map headerLine (tl (lines (render p))) = headerOf p.
Proof.
  destruct p as [r s c | r s | r | n]; cbn [clean headerOf].
  - intros H. apply andb_prop in H. destruct H as (H & Hc).
    apply andb_prop in H. destruct H as (Hr & Hs).
    assert (fileHeaders c = []) as Hnone by (destruct (fileHeaders c); [reflexivity | discriminate]).
    replace (render (Fragment r s c))
      with (JS.nl +++ ("**** File: " +++ headerText (r, s)) +++ JS.nl
              +++ JS.nl +++ c +++ JS.nl)
      by (unfold render, fragment, fileHeader, headerText; cbn [fst snd];
          now rewrite ?append_assoc).
    rewrite lines_after_nl. cbn [tl].
    rewrite lines_nl, (header_single r s Hr Hs), lines_after_nl, lines_before_nl.
    cbn [app flat_map]. rewrite headerLine_header, flat_map_app.
    fold (fileHeaders c). rewrite Hnone. reflexivity.
  - intros H. apply andb_prop in H. destruct H as (Hr & Hs).
    replace (render (Cutoff r s))
      with (JS.nl +++ ("**** File: " +++ headerText (r, s)) +++ JS.nl
              +++ "This file and all following files were omitted due to max-files limit."
              +++ JS.nl)
      by (unfold render, cutoffMarker, fileHeader, headerText; cbn [fst snd];
          now rewrite ?append_assoc).
    rewrite lines_after_nl. cbn [tl].
    rewrite lines_nl, (header_single r s Hr Hs), lines_before_nl.
    cbn [app flat_map]. rewrite headerLine_header. reflexivity.
  - intros Hr. unfold render, directoryMarker.
    rewrite lines_after_nl. cbn [tl].
    rewrite lines_single by (rewrite singleLine_app, Hr; reflexivity).
    reflexivity.
  - intros Hn. unfold render, summaryLine.
    rewrite append_assoc, lines_after_nl. cbn [tl].
    rewrite lines_after_nl.
    replace ("Total " +++ numberToString (inject_Z n)
               +++ " files were omitted due to the maxFiles limit" +++ JS.nl)
      with (("Total " +++ numberToString (inject_Z n)
               +++ " files were omitted due to the maxFiles limit") +++ JS.nl)
      by (now rewrite ?append_assoc).
    rewrite lines_before_nl.
    rewrite lines_single by (rewrite !singleLine_app, Hn; reflexivity).
    reflexivity.
Qed.

Lemma fileHeaders_clean (ps : list piece) :
  forallb clean ps = true -> fileHeaders (renderAll ps) = flat_map headerOf ps.
Proof.
  intros H. rewrite fileHeaders_renderAll.
  induction ps as [|p ps IH]; [reflexivity|].
  cbn [forallb] in H. apply andb_prop in H. destruct H as (Hp & Hps).
  cbn [flat_map]. now rewrite (clean_headers p Hp), (IH Hps).
Qed.

Lemma headers_without_cutoff (ps : list piece) :
  filter isCutoff ps = [] -> flat_map headerOf ps = map headerText (pairsOf ps).
Proof.
  induction ps as [|p ps IH]; [reflexivity|].
  unfold pairsOf in *. cbn [filter flat_map].
  destruct p as [r s c | r s | r | n]; cbn [isCutoff headerOf app map]; intros H;
    try discriminate; now rewrite (IH H).
Qed.

End ReadingBack.

(** ** Directory marker lines *)

Section MarkerLines.

Context {L : Library}.
Variable o : options.

Lemma lines_in_renderAll (p : piece) (ps : list piece) (l : string) :
  In p ps -> In l (tl (lines (render p))) -> In l (lines (renderAll ps)).
Proof.
  intros Hp Hl. rewrite lines_renderAll. right.
  apply in_flat_map. eauto.
Qed.

(** C10.  Every subdirectory that is met and not ignored is entered, and
    every directory entered in a run leaves its marker in the text,
    whatever comes of its files: the text is the rendering of the pieces
    in order, the marker is one of them, written as a line feed followed
    by [**** Directory: <relativePath>], and that line, whole, is one of
    the lines of the text (when the path holds no line feed; each of its
    lines otherwise).  Such a piece is not a file fragment. *)
Theorem directory_marker_emitted root st dir :
  run o root = Ok st ->
  In (EnterDirectory dir) (traversal o "" root) ->
  In (DirMarker dir) (pieces o root st)
  /\ isFragment (DirMarker dir) = false
  /\ (exists before after,
         output st = before +++ (JS.nl +++ "**** Directory: " +++ dir) +++ after)
  /\ (forall rel entries name sub,
         In (Directory name sub) entries ->
         isIgnored o (relPath rel name) = false ->
         In (EnterDirectory (relPath rel name)) (traversal o rel (Some entries)))
  /\ output st = renderAll (pieces o root st)
  /\ render (DirMarker dir) = JS.nl +++ "**** Directory: " +++ dir
  /\ (exists before after,
         pieces o root st = before ++ DirMarker dir :: after
         /\ output st
            = renderAll before +++ (JS.nl +++ "**** Directory: " +++ dir)
                +++ renderAll after)
  /\ (forall l, In l (lines ("**** Directory: " +++ dir)) -> In l (lines (output st)))
  /\ (singleLine dir = true -> In ("**** Directory: " +++ dir) (lines (output st))).
Proof.
  intros H Hin.
  pose proof (run_output _ _ _ H) as Hout.
  destruct (run_inv _ _ _ H) as (walked & Hsteps & _).
  assert (In (DirMarker dir) (pieces o root st)) as Hpiece.
  { unfold pieces. apply in_or_app. left. eapply steps_marker; eassumption. }
  assert (forall l, In l (lines ("**** Directory: " +++ dir)) -> In l (lines (output st)))
    as Hlines.
  { intros l Hl. rewrite Hout. apply (lines_in_renderAll (DirMarker dir)); [exact Hpiece|].
    unfold render, directoryMarker. rewrite lines_after_nl. exact Hl. }
  split; [exact Hpiece|]. split; [reflexivity|]. split.
  { destruct (renderAll_in _ _ Hpiece) as (before & after & Heq).
    exists before, after. now rewrite Hout, Heq. }
  split.
  { intros rel entries name sub He Hign.
    eapply below_in_traversal; [exact He|].
    cbn [below]. rewrite Hign. now left. }
  split; [exact Hout|]. split; [reflexivity|]. split.
  { destruct (in_split _ _ Hpiece) as (before & after & Heq).
    exists before, after. split; [exact Heq|].
    rewrite Hout, Heq, renderAll_app. reflexivity. }
  split; [exact Hlines|].
  intros Hsingle. apply Hlines.
  rewrite lines_single; [now left|].
  rewrite singleLine_app, Hsingle. reflexivity.
Qed.

End MarkerLines.

Lemma directory_marker_emitted_witness :
  exists st,
    run (L := Sample.lib) Sample.defaults Trees.nested = Ok st
    /\ In (EnterDirectory "sub") (traversal (L := Sample.lib) Sample.defaults "" Trees.nested)
    /\ processedFiles st = 0
    /\ lines (output st)
       = [ EmptyString; "**** Directory: sub"; "**** Directory: sub/deep" ]%string
    /\ In "**** Directory: sub"%string (lines (output st)).
Proof.
  eexists.
  split; [reflexivity|]. split; [now left|]. split; [reflexivity|]. split; [reflexivity|].
  destruct (directory_marker_emitted (L := Sample.lib) Sample.defaults Trees.nested _ "sub"
              eq_refl (or_introl eq_refl))
    as (_ & _ & _ & _ & _ & _ & _ & _ & Hline).
  apply Hline. reflexivity.
Defined.

Section RoundTrip.

Context {L : Library}.
Variable o : options.

(** C7, as far as it holds.  The text of a run is the rendering of its
    pieces in order.  When every piece is clean (no relative path or
    formatted number holds a line feed, and no line of an emitted content
    begins with the file marker), the lines of the text that begin with
    the file marker are, in order, the headers of the files that were
    rendered, each made of the relative path and of the formatted size,
    and of the first omitted file if there is one; when no file was
    omitted they are exactly the headers of the rendered pairs. *)
Theorem headers_read_back root st :
  run o root = Ok st ->
  forallb clean (pieces o root st) = true ->
  output st = renderAll (pieces o root st)
  /\ fileHeaders (output st) = flat_map headerOf (pieces o root st)
  /\ (omittedFiles st = 0 ->
      fileHeaders (output st) = map headerText (pairsOf (pieces o root st))).
Proof.
  intros H Hclean.
  pose proof (run_output _ _ _ H) as Hout.
  assert (fileHeaders (output st) = flat_map headerOf (pieces o root st)) as Hread
      by (rewrite Hout; now apply fileHeaders_clean).
  split; [exact Hout|]. split; [exact Hread|].
  intros Hzero. rewrite Hread. apply headers_without_cutoff.
  destruct (run_inv _ _ _ H) as (walked & Hsteps & _ & _ & _ & Ho).
  destruct (steps_cutoff _ _ _ _ Hsteps) as (Hcount & Hmark).
  specialize (Hmark ltac:(simpl; lia)). simpl in Hcount, Hmark.
  unfold pieces. rewrite filter_app, Hmark, Hzero.
  destruct (omittedList o (traversal o "" root) initial); [reflexivity|].
  simpl in Hcount. lia.
Qed.

End RoundTrip.

Lemma headers_read_back_witness :
  exists st,
    run (L := Sample.lib) Sample.defaults Sample.scenario = Ok st
    /\ forallb (clean (L := Sample.lib))
               (pieces (L := Sample.lib) Sample.defaults Sample.scenario st) = true
    /\ fileHeaders (output st) = ["a.txt, size: 5 B"%string; "sub/c.txt, size: 5 B"%string]
    /\ fileHeaders (output st)
       = flat_map (headerOf (L := Sample.lib))
                  (pieces (L := Sample.lib) Sample.defaults Sample.scenario st).
Proof.
  eexists.
  split; [reflexivity|]. split; [reflexivity|]. split; [reflexivity|].
  apply (headers_read_back (L := Sample.lib) Sample.defaults Sample.scenario);
    reflexivity.
Defined.

(** ** Repository URLs *)

Section Urls.

Import Str.

Lemma stripPrefix_spec (p s rest : string) :
  stripPrefix p s = Some rest <-> s = p +++ rest.
Proof.
  split.
  - revert s. induction p as [|a p IH]; intros s H; cbn [stripPrefix] in H.
    + now injection H as ->.
    + destruct s as [|b s]; [discriminate|].
      destruct (Ascii.eqb_spec a b) as [->|]; [|discriminate].
      cbn [String.append]. f_equal. now apply IH.
  - intros ->. apply stripPrefix_app.
Qed.

Lemma startsWith_append (p a b : string) :
  startsWith p a = true -> startsWith p (a +++ b) = true.
Proof.
  unfold startsWith. destruct (stripPrefix p a) as [rest|] eqn:E; [|discriminate].
  apply stripPrefix_spec in E. subst a. intros _.
  now rewrite append_assoc, stripPrefix_app.
Qed.

Lemma all_append (test : ascii -> bool) (a b : string) :
  all test (a +++ b) = all test a && all test b.
Proof.
  induction a as [|c a IH]; cbn [String.append all]; [reflexivity|].
  now rewrite IH, andb_assoc.
Qed.

(** Stripping removes a suffix made of slashes, and nothing else. *)
Lemma strip_suffix (s : string) :
  exists slashes, s = stripTrailingSlashes s +++ slashes /\ all isSlash slashes = true.
Proof.
  induction s as [|c s (slashes & IH & Hall)]; [now exists EmptyString|].
  cbn [stripTrailingSlashes].
  destruct (stripTrailingSlashes s) as [|d kept] eqn:E.
  - cbn [String.append] in IH. subst s.
    unfold isSlash in *. destruct (Ascii.eqb_spec c "/") as [->|Hc].
    + exists (String "/" slashes). split; [reflexivity|].
      cbn [all]. now rewrite Hall.
    + now exists slashes.
  - exists slashes. split; [|exact Hall].
    cbn [String.append]. f_equal. exact IH.
Qed.

Lemma strip_append_slash (s : string) :
  stripTrailingSlashes (s +++ "/") = stripTrailingSlashes s.
Proof.
  induction s as [|c s IH]; [reflexivity|].
  cbn [String.append stripTrailingSlashes]. now rewrite IH.
Qed.

Lemma strip_idempotent (s : string) :
  stripTrailingSlashes (stripTrailingSlashes s) = stripTrailingSlashes s.
Proof.
  induction s as [|c s IH]; [reflexivity|].
  cbn [stripTrailingSlashes].
  destruct (stripTrailingSlashes s) as [|d kept] eqn:E.
  - destruct (Ascii.eqb c "/") eqn:Ec; [reflexivity|].
    cbn [stripTrailingSlashes]. now rewrite Ec.
  - cbn [stripTrailingSlashes]. cbn [stripTrailingSlashes] in IH. now rewrite IH.
Qed.

Lemma strip_cons (c : ascii) (s : string) :
  stripTrailingSlashes s = s -> s <> EmptyString ->
  stripTrailingSlashes (String c s) = String c s.
Proof.
  intros Heq Hne. cbn [stripTrailingSlashes]. rewrite Heq.
  destruct s; [contradiction | reflexivity].
Qed.

Lemma wordOrHyphen_not_slash (c : ascii) :
  wordOrHyphen c = true -> Ascii.eqb c "/" = false.
Proof.
  destruct (Ascii.eqb_spec c "/") as [->|]; [discriminate | reflexivity].
Qed.

Lemma wordRun_kept (s : string) :
  wordRun s = true -> stripTrailingSlashes s = s /\ s <> EmptyString.
Proof.
  induction s as [|c s IH]; [discriminate|].
  destruct s as [|d s].
  - cbn [wordRun stripTrailingSlashes]. intros Hc.
    rewrite (wordOrHyphen_not_slash _ Hc). now split.
  - intros H. change (wordOrHyphen c && wordRun (String d s) = true) in H.
    apply andb_prop in H. destruct H as (_ & H).
    destruct (IH H) as (Heq & Hne). split; [|discriminate].
    now apply strip_cons.
Qed.

Lemma runThenRepo_kept (s : string) :
  runThenRepo s = true -> stripTrailingSlashes s = s /\ s <> EmptyString.
Proof.
  induction s as [|c s IH]; [discriminate|].
  cbn [runThenRepo]. intros H. split; [|discriminate].
  destruct (Ascii.eqb c "/").
  - destruct (wordRun_kept _ H). now apply strip_cons.
  - apply andb_prop in H. destruct H as (_ & H).
    destruct (IH H). now apply strip_cons.
Qed.

Lemma shortForm_kept (s : string) :
  shortForm s = true -> stripTrailingSlashes s = s /\ s <> EmptyString.
Proof.
  destruct s as [|c s]; [discriminate|].
  cbn [shortForm]. intros H. apply andb_prop in H. destruct H as (_ & H).
  split; [|discriminate].
  destruct (runThenRepo_kept _ H). now apply strip_cons.
Qed.

Lemma strip_prepend (p s : string) :
  stripTrailingSlashes s = s -> s <> EmptyString ->
  stripTrailingSlashes (p +++ s) = p +++ s.
Proof.
  intros Heq Hne. induction p as [|c p IH]; [exact Heq|].
  cbn [String.append]. apply strip_cons; [exact IH|].
  destruct p; [exact Hne | discriminate].
Qed.

(** A short form holds word characters, hyphens and slashes only. *)
Lemma wordRun_chars (s : string) :
  wordRun s = true -> all (fun c => wordOrHyphen c || isSlash c) s = true.
Proof.
  induction s as [|c s IH]; [reflexivity|].
  destruct s as [|d s].
  - cbn [wordRun all]. now intros ->.
  - intros H. change (wordOrHyphen c && wordRun (String d s) = true) in H.
    apply andb_prop in H. destruct H as (Hc & H).
    change (all ?t (String c ?r)) with (t c && all t r).
    cbn beta. now rewrite Hc, (IH H).
Qed.

Lemma runThenRepo_chars (s : string) :
  runThenRepo s = true -> all (fun c => wordOrHyphen c || isSlash c) s = true.
Proof.
  induction s as [|c s IH]; [reflexivity|].
  cbn [runThenRepo all]. unfold isSlash at 1.
  destruct (Ascii.eqb c "/"); intros H.
  - rewrite orb_true_r. now apply wordRun_chars.
  - apply andb_prop in H. destruct H as (-> & H). now rewrite (IH H).
Qed.

Lemma shortForm_chars (s : string) :
  shortForm s = true -> all (fun c => wordOrHyphen c || isSlash c) s = true.
Proof.
  destruct s as [|c s]; [reflexivity|].
  cbn [shortForm all]. intros H. apply andb_prop in H.
  destruct H as (-> & H). now rewrite (runThenRepo_chars _ H).
Qed.

Lemma includes_github_dot (s : string) :
  includes "github.com" s = true -> all (fun c => negb (isDot c)) s = false.
Proof.
  induction s as [|c s IH]; [discriminate|].
  cbn [includes]. intros H. apply orb_prop in H. destruct H as [H | H].
  - unfold startsWith in H.
    destruct (stripPrefix "github.com" (String c s)) as [rest|] eqn:E; [|discriminate].
    apply stripPrefix_spec in E. rewrite E. reflexivity.
  - cbn [all]. rewrite (IH H). apply andb_false_r.
Qed.

Lemma dotted_not_shortForm (s : string) :
  all (fun c => negb (isDot c)) s = false -> shortForm s = false.
Proof.
  intros Hdot. destruct (shortForm s) eqn:E; [|reflexivity].
  apply shortForm_chars in E. exfalso.
  induction s as [|c s IH]; [discriminate|].
  cbn [all] in *. apply andb_prop in E. destruct E as (Hc & E).
  unfold isDot, isSlash in *.
  destruct (Ascii.eqb_spec c ".") as [->|_]; [discriminate|].
  cbn [negb andb] in Hdot. now apply IH.
Qed.

End Urls.

Lemma shortForm_no_prefix (p s : string) :
  Str.all (fun c => Str.wordOrHyphen c || Str.isSlash c) p = false ->
  Str.shortForm s = true -> Str.startsWith p s = false.
Proof.
  intros Hp Hs. unfold Str.startsWith.
  destruct (stripPrefix p s) as [rest|] eqn:E; [|reflexivity].
  apply stripPrefix_spec in E. subst s.
  apply shortForm_chars in Hs. rewrite all_append, Hp in Hs. discriminate.
Qed.

Lemma strip_slashes (s t : string) :
  Str.all Str.isSlash t = true ->
  Str.stripTrailingSlashes (s +++ t) = Str.stripTrailingSlashes s.
Proof.
  revert s. induction t as [|c t IH]; intros s H.
  - now rewrite append_empty_r.
  - cbn [Str.all] in H. apply andb_prop in H. destruct H as (Hc & H).
    unfold Str.isSlash in Hc. apply Ascii.eqb_eq in Hc. subst c.
    change (s +++ String "/" t) with (s +++ ("/" +++ t)).
    rewrite <- append_assoc, (IH _ H). apply strip_append_slash.
Qed.

(** X1.  Trailing slashes make no difference to [normalizeGitHubUrl]: the
    result, or the message of the error, is that of the URL without
    them. *)
Theorem normalize_ignores_trailing_slashes (url slashes : string) :
  Str.all Str.isSlash slashes = true ->
  normalizeGitHubUrl (url +++ slashes) = normalizeGitHubUrl url
  /\ normalizeGitHubUrl url = normalizeGitHubUrl (Str.stripTrailingSlashes url).
Proof.
  intros H. unfold normalizeGitHubUrl.
  now rewrite (strip_slashes _ _ H), strip_idempotent.
Qed.

Lemma normalize_ignores_trailing_slashes_witness :
  Str.all Str.isSlash "//" = true
  /\ normalizeGitHubUrl "octocat/Spoon-Knife//" = Returns "https://github.com/octocat/Spoon-Knife"%string
  /\ normalizeGitHubUrl ("octocat/Spoon-Knife" +++ "//") = normalizeGitHubUrl "octocat/Spoon-Knife".
Proof.
  split; [reflexivity|]. split; [reflexivity|].
  apply (normalize_ignores_trailing_slashes "octocat/Spoon-Knife"%string "//"%string). reflexivity.
Defined.

(** X2.  What [normalizeGitHubUrl] returns begins with one of the two GitHub
    prefixes, ends with no slash, and is a fixed point: normalizing it
    again returns it unchanged. *)
Theorem normalize_idempotent (url normalized : string) :
  normalizeGitHubUrl url = Returns normalized ->
  (Str.startsWith "git@github.com:" normalized = true
   \/ Str.startsWith "https://github.com/" normalized = true)
  /\ Str.stripTrailingSlashes normalized = normalized
  /\ normalizeGitHubUrl normalized = Returns normalized.
Proof.
  unfold normalizeGitHubUrl at 1.
  destruct (Str.startsWith "git@github.com:" (Str.stripTrailingSlashes url)) eqn:Egit.
  - intros H; injection H as <-.
    split; [now left|]. split; [apply strip_idempotent|].
    unfold normalizeGitHubUrl. now rewrite strip_idempotent, Egit.
  - destruct (Str.startsWith "https://github.com/" (Str.stripTrailingSlashes url)) eqn:Ehttps.
    + intros H; injection H as <-.
      split; [now right|]. split; [apply strip_idempotent|].
      unfold normalizeGitHubUrl. now rewrite strip_idempotent, Egit, Ehttps.
    + destruct (Str.shortForm (Str.stripTrailingSlashes url)) eqn:Eshort; [|discriminate].
      intros H; injection H as <-.
      destruct (shortForm_kept _ Eshort) as (Hkept & Hne).
      assert (Str.stripTrailingSlashes
                ("https://github.com/" +++ Str.stripTrailingSlashes url)
              = "https://github.com/" +++ Str.stripTrailingSlashes url) as Hfix
          by now apply strip_prepend.
      assert (Str.startsWith "https://github.com/"
                ("https://github.com/" +++ Str.stripTrailingSlashes url) = true) as Hstart
          by (unfold Str.startsWith; now rewrite stripPrefix_app).
      split; [now right|]. split; [exact Hfix|].
      unfold normalizeGitHubUrl. cbv zeta.
      cbn [String.append] in Hfix, Hstart |- *. rewrite Hfix, Hstart. reflexivity.
Qed.

Lemma normalize_idempotent_witness :
  normalizeGitHubUrl "octocat/Spoon-Knife/" = Returns "https://github.com/octocat/Spoon-Knife"%string
  /\ normalizeGitHubUrl "https://github.com/octocat/Spoon-Knife"
     = Returns "https://github.com/octocat/Spoon-Knife"%string.
Proof.
  split; [reflexivity|].
  apply (normalize_idempotent "octocat/Spoon-Knife/"%string "https://github.com/octocat/Spoon-Knife"%string).
  reflexivity.
Defined.

(** X3.  A [user/repo] short form passes [validateInput] unchanged and
    [normalizeGitHubUrl] turns it into the HTTPS URL of the repository. *)
Theorem short_form_accepted (url : string) (others : list string) :
  Str.shortForm url = true ->
  validateInput (Some (url :: others)) = Returns url
  /\ normalizeGitHubUrl url = Returns ("https://github.com/" +++ url).
Proof.
  intros H. split.
  - unfold validateInput. rewrite H. now rewrite andb_false_r.
  - unfold normalizeGitHubUrl.
    destruct (shortForm_kept _ H) as (-> & _).
    rewrite (shortForm_no_prefix "git@github.com:" url eq_refl H).
    rewrite (shortForm_no_prefix "https://github.com/" url eq_refl H).
    now rewrite H.
Qed.

Lemma short_form_accepted_witness :
  Str.shortForm "octocat/Spoon-Knife" = true
  /\ validateInput (Some ["octocat/Spoon-Knife"%string]) = Returns "octocat/Spoon-Knife"%string
  /\ normalizeGitHubUrl "octocat/Spoon-Knife" = Returns "https://github.com/octocat/Spoon-Knife"%string.
Proof.
  split; [reflexivity|].
  apply (short_form_accepted "octocat/Spoon-Knife" []). reflexivity.
Defined.

Lemma dotted_strip (s : string) :
  Str.all (fun c => negb (Str.isDot c)) s = false ->
  Str.all (fun c => negb (Str.isDot c)) (Str.stripTrailingSlashes s) = false.
Proof.
  intros H. destruct (strip_suffix s) as (slashes & Heq & Hall).
  rewrite Heq, all_append in H.
  assert (Str.all (fun c => negb (Str.isDot c)) slashes = true) as Hs.
  { clear Heq H. induction slashes as [|c t IH]; [reflexivity|].
    cbn [Str.all] in *. apply andb_prop in Hall. destruct Hall as (Hc & Hall).
    unfold Str.isSlash in Hc. apply Ascii.eqb_eq in Hc. subst c.
    now rewrite (IH Hall). }
  rewrite Hs, andb_true_r in H. exact H.
Qed.

Lemma startsWith_strip (p s : string) :
  Str.startsWith p s = false -> Str.startsWith p (Str.stripTrailingSlashes s) = false.
Proof.
  intros H. destruct (Str.startsWith p (Str.stripTrailingSlashes s)) eqn:E; [|reflexivity].
  destruct (strip_suffix s) as (slashes & Heq & _).
  rewrite Heq, (startsWith_append _ _ slashes E) in H. discriminate.
Qed.

(** X4.  [validateInput] lets through every URL that merely contains
    [github.com]; unless the URL begins with one of the two GitHub
    prefixes, [normalizeGitHubUrl] then throws, quoting the URL without
    its trailing slashes. *)
Theorem validated_url_may_not_normalize (url : string) (others : list string) :
  Str.includes "github.com" url = true ->
  validateInput (Some (url :: others)) = Returns url
  /\ (Str.startsWith "git@github.com:" url = false ->
      Str.startsWith "https://github.com/" url = false ->
      normalizeGitHubUrl url
      = Throws ("Invalid GitHub URL: " +++ Str.stripTrailingSlashes url)).
Proof.
  intros H. split.
  - unfold validateInput. now rewrite H.
  - intros Hgit Hhttps. unfold normalizeGitHubUrl.
    rewrite (startsWith_strip _ _ Hgit), (startsWith_strip _ _ Hhttps).
    now rewrite (dotted_not_shortForm _ (dotted_strip _ (includes_github_dot _ H))).
Qed.

Lemma validated_url_may_not_normalize_witness :
  Str.includes "github.com" "http://github.com/octocat/Spoon-Knife/" = true
  /\ validateInput (Some ["http://github.com/octocat/Spoon-Knife/"%string])
     = Returns "http://github.com/octocat/Spoon-Knife/"%string
  /\ normalizeGitHubUrl "http://github.com/octocat/Spoon-Knife/"
     = Throws "Invalid GitHub URL: http://github.com/octocat/Spoon-Knife".
Proof.
  split; [reflexivity|]. split; [reflexivity|].
  apply (validated_url_may_not_normalize "http://github.com/octocat/Spoon-Knife/" []);
    reflexivity.
Defined.

(** ** The repository name *)

Lemma split_nonempty (sep : ascii) (s : string) :
  exists part parts, Str.split sep s = part :: parts.
Proof.
  induction s as [|c s (part & parts & IH)]; cbn [Str.split]; [eauto|].
  destruct (Ascii.eqb c sep); [eauto|]. rewrite IH. eauto.
Qed.

Lemma split_separator (sep : ascii) (a b : string) :
  Str.split sep (a +++ String sep b) = Str.split sep a ++ Str.split sep b.
Proof.
  induction a as [|c a IH]; cbn [String.append Str.split].
  - now rewrite Ascii.eqb_refl.
  - destruct (Ascii.eqb c sep); rewrite IH; [reflexivity|].
    destruct (split_nonempty sep a) as (part & parts & ->). reflexivity.
Qed.

Lemma split_single (s : string) :
  Str.all (fun c => negb (Str.isSlash c)) s = true -> Str.split "/" s = [s].
Proof.
  induction s as [|c s IH]; [reflexivity|].
  cbn [Str.all Str.split]. unfold Str.isSlash at 1.
  destruct (Ascii.eqb c "/"); [discriminate|].
  cbn [negb andb]. intros H. now rewrite (IH H).
Qed.

Lemma split_parts_no_separator (s : string) :
  Forall (fun part => Str.all (fun c => negb (Str.isSlash c)) part = true)
         (Str.split "/" s).
Proof.
  induction s as [|c s IH]; cbn [Str.split]; [now repeat constructor|].
  destruct (Ascii.eqb c "/") eqn:Ec; [now constructor|].
  destruct (Str.split "/" s) as [|part parts].
  - constructor; [|constructor]. cbn [Str.all]. unfold Str.isSlash. now rewrite Ec.
  - inversion IH as [|? ? Hpart Hparts]; subst.
    constructor; [|exact Hparts]. cbn [Str.all]. unfold Str.isSlash at 1.
    now rewrite Ec, Hpart.
Qed.

Lemma pop_after (parts : list string) (final : string) :
  Str.pop (parts ++ [final]) = final.
Proof. unfold Str.pop. apply last_last. Qed.

Lemma pop_in (part : string) (parts : list string) :
  In (Str.pop (part :: parts)) (part :: parts).
Proof.
  unfold Str.pop. revert part.
  induction parts as [|p parts IH]; intros part; [now left|].
  right. apply (IH p).
Qed.

Lemma removeFirst_chars (test : ascii -> bool) (p s : string) :
  Str.all test s = true -> Str.all test (Str.removeFirst p s) = true.
Proof.
  induction s as [|c s IH]; intros H; cbn [Str.removeFirst].
  - destruct (stripPrefix p EmptyString) as [rest|] eqn:E; [|reflexivity].
    apply stripPrefix_spec in E. destruct p; [|discriminate].
    cbn [String.append] in E. now subst rest.
  - destruct (stripPrefix p (String c s)) as [rest|] eqn:E.
    + apply stripPrefix_spec in E. rewrite E, all_append in H.
      now apply andb_prop in H.
    + cbn [Str.all] in *. apply andb_prop in H. destruct H as (-> & H).
      now rewrite (IH H).
Qed.

Lemma removeFirst_suffix (name : string) :
  Str.all (fun c => negb (Str.isDot c)) name = true ->
  Str.removeFirst ".git" (name +++ ".git") = name
  /\ Str.removeFirst ".git" name = name.
Proof.
  induction name as [|c name IH]; [now split|].
  cbn [Str.all]. intros H. apply andb_prop in H. destruct H as (Hc & H).
  destruct (IH H) as (IH1 & IH2).
  unfold Str.isDot in Hc. apply negb_true_iff in Hc.
  cbn [String.append Str.removeFirst stripPrefix].
  rewrite Ascii.eqb_sym, Hc. now rewrite IH1, IH2.
Qed.

(** X5.  The name [downloadRepository] gives a repository holds no slash. *)
Theorem repoName_has_no_slash (url : string) :
  Str.all (fun c => negb (Str.isSlash c)) (repoName url) = true.
Proof.
  unfold repoName. apply removeFirst_chars.
  pose proof (split_parts_no_separator url) as Hall.
  destruct (split_nonempty "/" url) as (part & parts & E). rewrite E in *.
  rewrite Forall_forall in Hall. apply Hall, pop_in.
Qed.

(** X6.  A URL that ends with a slash is normalized like the URL without it,
    so the clone goes ahead, but the name is taken from the URL as given:
    it is empty, and without [--output] the text goes to [.txt]. *)
Theorem trailing_slash_loses_name (url : string) (fl : flags) :
  normalizeGitHubUrl (url +++ "/") = normalizeGitHubUrl url
  /\ repoName (url +++ "/") = EmptyString
  /\ (outputFlag fl = None -> outputPath fl (repoName (url +++ "/")) = ".txt"%string).
Proof.
  assert (repoName (url +++ "/") = EmptyString) as Hname.
  { unfold repoName.
    change (url +++ "/") with (url +++ String "/" EmptyString).
    rewrite split_separator. cbn [Str.split]. now rewrite pop_after. }
  split; [|split].
  - unfold normalizeGitHubUrl. now rewrite strip_append_slash.
  - exact Hname.
  - intros Hflag. unfold outputPath. now rewrite Hflag, Hname.
Qed.

Lemma trailing_slash_loses_name_witness :
  normalizeGitHubUrl "https://github.com/octocat/Spoon-Knife/"
  = Returns "https://github.com/octocat/Spoon-Knife"%string
  /\ outputPath defaultFlags (repoName "https://github.com/octocat/Spoon-Knife/")
     = ".txt"%string.
Proof.
  split; [reflexivity|].
  apply (trailing_slash_loses_name "https://github.com/octocat/Spoon-Knife" defaultFlags).
  reflexivity.
Defined.

(** X7.  For a URL whose last segment is a name without dot or slash, with or
    without the [.git] suffix, the repository takes that name and, when
    [--output] is not given, the text goes to [<name>.txt]. *)
Theorem repoName_of_last_segment (base name : string) (fl : flags) :
  Str.all (fun c => negb (Str.isDot c)) name = true ->
  Str.all (fun c => negb (Str.isSlash c)) name = true ->
  repoName (base +++ "/" +++ name +++ ".git") = name
  /\ repoName (base +++ "/" +++ name) = name
  /\ (outputFlag fl = None ->
      outputPath fl (repoName (base +++ "/" +++ name +++ ".git")) = name +++ ".txt").
Proof.
  intros Hdot Hslash.
  destruct (removeFirst_suffix name Hdot) as (Hgit & Hplain).
  assert (Str.all (fun c => negb (Str.isSlash c)) (name +++ ".git") = true) as Hslash'
      by (rewrite all_append, Hslash; reflexivity).
  assert (repoName (base +++ "/" +++ name +++ ".git") = name) as H1.
  { unfold repoName. change ("/" +++ name +++ ".git") with (String "/" (name +++ ".git")).
    rewrite split_separator, (split_single _ Hslash'), pop_after. exact Hgit. }
  split; [exact H1|]. split.
  - unfold repoName. change ("/" +++ name) with (String "/" name).
    rewrite split_separator, (split_single _ Hslash), pop_after. exact Hplain.
  - intros Hflag. unfold outputPath. now rewrite Hflag, H1.
Qed.

Lemma repoName_of_last_segment_witness :
  Str.all (fun c => negb (Str.isDot c)) "Spoon-Knife" = true
  /\ Str.all (fun c => negb (Str.isSlash c)) "Spoon-Knife" = true
  /\ repoName "https://github.com/octocat/Spoon-Knife.git" = "Spoon-Knife"%string.
Proof.
  split; [reflexivity|]. split; [reflexivity|].
  apply (repoName_of_last_segment "https://github.com/octocat" "Spoon-Knife" defaultFlags);
    reflexivity.
Defined.

(** ** More on the counters *)

Section Counters.

Context {L : Library}.
Variable o : options.

Lemma steps_skipped items :
  forall st st',
    steps o items st = Ok st' ->
    skippedFiles st'
    = skippedFiles st + (countIf isVisitFile items - countIf (eligibleItem o) items).
Proof.
  induction items as [|it items IH]; intros st st' H.
  - injection H as <-. unfold countIf; simpl. lia.
  - rewrite !countIf_cons.
    destruct it as [r f | r | d]; cbn [steps step bind] in H; try discriminate;
      apply IH in H; rewrite H; cbn [isVisitFile eligibleItem].
    + destruct (eligible o r f) eqn:El.
      * pose proof (classify_eligible o r f (processedFiles st) El) as Hc.
        unfold processFile.
        destruct (JS.truthy (maxFiles o) && (maxFiles o <=? processedFiles st)).
        -- destruct Hc as (size & ->). cbn [settle skippedFiles]. lia.
        -- destruct Hc as (size & content & [-> | ->]); cbn [settle skippedFiles]; lia.
      * rewrite (classify_skipped o r f st El). cbn [skip skippedFiles]. lia.
    + cbn [emit skippedFiles]. lia.
Qed.

Lemma steps_fragments items :
  forall st st',
    steps o items st = Ok st' ->
    countIf isFragment (trace o items st) = processedFiles st' - processedFiles st.
Proof.
  induction items as [|it items IH]; intros st st' H.
  - injection H as <-. unfold countIf; simpl. lia.
  - cbn [trace]. rewrite countIf_app.
    destruct it as [r f | r | d]; cbn [steps step bind] in H; try discriminate;
      cbn [step]; apply IH in H; rewrite H.
    + unfold processFile. cbn [emitted].
      destruct (classify o r f (processedFiles st)) as [ | | | |size|size c|size c];
        cbn [settle skip processedFiles];
        try (change (countIf isFragment []) with 0; lia);
        try (change (countIf isFragment [Fragment r size c]) with 1; lia).
      destruct (omittedFiles st =? 0);
        [change (countIf isFragment [Cutoff r size]) with 0
        |change (countIf isFragment []) with 0]; lia.
    + change (countIf isFragment (emitted o (EnterDirectory r) st)) with 0.
      cbn [emit processedFiles]. lia.
Qed.

(** X8.  How many files a run skips does not depend on the file limit: it is
    the number of visited files that some check skips.  The eligible ones
    are shared between processed and omitted. *)
Theorem skipped_and_eligible root st :
  run o root = Ok st ->
  skippedFiles st
  = countIf isVisitFile (traversal o "" root) - countIf (eligibleItem o) (traversal o "" root)
  /\ processedFiles st + omittedFiles st = countIf (eligibleItem o) (traversal o "" root).
Proof.
  intros H. destruct (run_inv _ _ _ H) as (walked & Hsteps & _ & Hp & Hs & Ho).
  pose proof (steps_counted _ _ _ _ Hsteps) as Hcount.
  pose proof (steps_skipped _ _ _ Hsteps) as Hskip.
  unfold counted in Hcount. simpl in Hcount, Hskip. lia.
Qed.

Lemma omittedList_unlimited items :
  maxFiles o = 0 -> forall st, omittedList o items st = [].
Proof.
  intros Hzero. induction items as [|it items IH]; intros st; [reflexivity|].
  cbn [omittedList].
  assert (match step o it st with Ok st' => omittedList o items st' | Throw _ => [] end = [])
    as -> by (destruct (step o it st); [apply IH | reflexivity]).
  rewrite app_nil_r.
  destruct it as [r f | r | d]; try reflexivity.
  destruct (classify o r f (processedFiles st)) as [ | | | |size|size c|size c] eqn:Hc;
    try reflexivity.
  apply classify_omit_read in Hc. destruct Hc as (_ & _ & Ht & _).
  unfold JS.truthy in Ht. rewrite Hzero in Ht. discriminate.
Qed.

(** X9.  Without a file limit ([maxFiles] is [0]) no file is omitted: every
    eligible file is processed, and the text holds neither a cutoff
    marker nor a summary line. *)
Theorem unlimited_run root st :
  maxFiles o = 0 ->
  run o root = Ok st ->
  omittedFiles st = 0
  /\ processedFiles st = countIf (eligibleItem o) (traversal o "" root)
  /\ countIf isFragment (pieces o root st) = processedFiles st
  /\ pieces o root st = trace o (traversal o "" root) initial
  /\ filter isCutoff (pieces o root st) = []
  /\ run o root = processDirectory o "" root initial.
Proof.
  intros Hzero H.
  destruct (run_inv _ _ _ H) as (walked & Hsteps & Hst & Hp & Hs & Ho).
  destruct (steps_cutoff _ _ _ _ Hsteps) as (Hom & Hmark).
  specialize (Hmark ltac:(simpl; lia)). simpl in Hom, Hmark.
  rewrite (omittedList_unlimited _ Hzero) in Hom, Hmark. simpl in Hom, Hmark.
  pose proof (steps_counted _ _ _ _ Hsteps) as Hcount.
  pose proof (steps_skipped _ _ _ Hsteps) as Hskip.
  pose proof (steps_fragments _ _ _ Hsteps) as Hfrag.
  unfold counted in Hcount. simpl in Hcount, Hskip, Hfrag.
  assert (omittedFiles st = 0) as Hzero' by lia.
  assert (pieces o root st = trace o (traversal o "" root) initial) as Hpieces
      by (unfold pieces; rewrite Hzero'; apply app_nil_r).
  split; [exact Hzero'|]. split; [lia|]. split; [rewrite Hpieces; lia|].
  split; [exact Hpieces|]. split; [now rewrite Hpieces|].
  rewrite H, processDirectory_steps, Hsteps. f_equal.
  rewrite Hst. replace (omittedFiles walked) with 0 by lia. reflexivity.
Qed.

Lemma steps_negative_limit items :
  maxFiles o < 0 ->
  forall st st',
    steps o items st = Ok st' -> 0 <= processedFiles st ->
    processedFiles st' = processedFiles st.
Proof.
  intros Hneg. induction items as [|it items IH]; intros st st' H Hnn.
  - now injection H as <-.
  - destruct it as [r f | r | d]; cbn [steps step bind] in H; try discriminate.
    + assert (processedFiles (processFile o r f st) = processedFiles st) as Hsame.
      { destruct (eligible o r f) eqn:El.
        - pose proof (classify_eligible o r f (processedFiles st) El) as Hc.
          assert (JS.truthy (maxFiles o) && (maxFiles o <=? processedFiles st) = true) as Ht.
          { unfold JS.truthy.
            destruct (Z.eqb_spec (maxFiles o) 0); [lia|].
            destruct (Z.leb_spec (maxFiles o) (processedFiles st)); [reflexivity | lia]. }
          rewrite Ht in Hc. destruct Hc as (size & Hc).
          unfold processFile. now rewrite Hc.
        - now rewrite (classify_skipped o r f st El). }
      apply IH in H; [|lia]. lia.
    + apply IH in H; [|exact Hnn]. exact H.
Qed.

(** X10.  A negative file limit lets nothing through: no file is processed, the
    text holds no fragment, and every eligible file is counted omitted. *)
Theorem negative_limit_omits_all root st :
  maxFiles o < 0 ->
  run o root = Ok st ->
  processedFiles st = 0
  /\ countIf isFragment (pieces o root st) = 0
  /\ omittedFiles st = countIf (eligibleItem o) (traversal o "" root).
Proof.
  intros Hneg H.
  destruct (run_inv _ _ _ H) as (walked & Hsteps & _ & Hp & Hs & Ho).
  pose proof (steps_counted _ _ _ _ Hsteps) as Hcount.
  pose proof (steps_skipped _ _ _ Hsteps) as Hskip.
  pose proof (steps_fragments _ _ _ Hsteps) as Hfrag.
  pose proof (steps_negative_limit _ Hneg _ _ Hsteps ltac:(simpl; lia)) as Hproc.
  unfold counted in Hcount. simpl in Hcount, Hskip, Hfrag, Hproc.
  split; [lia|]. split; [rewrite pieces_fragments; lia | lia].
Qed.

End Counters.

Lemma skipped_and_eligible_witness :
  exists st,
    run (L := Sample.lib) Sample.limitOne Sample.scenario = Ok st
    /\ skippedFiles st = 1
    /\ processedFiles st + omittedFiles st
       = countIf (eligibleItem (L := Sample.lib) Sample.limitOne)
                 (traversal (L := Sample.lib) Sample.limitOne "" Sample.scenario).
Proof.
  eexists. split; [reflexivity|]. split; [reflexivity|].
  apply (skipped_and_eligible (L := Sample.lib) Sample.limitOne Sample.scenario).
  reflexivity.
Defined.

Lemma unlimited_run_witness :
  exists st,
    maxFiles Sample.defaults = 0
    /\ run (L := Sample.lib) Sample.defaults Sample.scenario = Ok st
    /\ processedFiles st = 2
    /\ omittedFiles st = 0.
Proof.
  eexists. split; [reflexivity|]. split; [reflexivity|]. split; [reflexivity|].
  apply (unlimited_run (L := Sample.lib) Sample.defaults Sample.scenario); reflexivity.
Defined.

Lemma negative_limit_omits_all_witness :
  exists st,
    maxFiles (mkOptions 1 false None false (-1)) < 0
    /\ run (L := Sample.lib) (mkOptions 1 false None false (-1)) Sample.scenario = Ok st
    /\ omittedFiles st = 2
    /\ processedFiles st = 0.
Proof.
  eexists. split; [reflexivity|]. split; [reflexivity|]. split; [reflexivity|].
  apply (negative_limit_omits_all (L := Sample.lib) (mkOptions 1 false None false (-1))
           Sample.scenario); reflexivity.
Defined.

(** ** Listing order *)

Section ListingOrder.

Context {L : Library}.
Variable o : options.

Lemma filesOf_files rel entries :
  filesOf rel (filter isFile entries) = filesOf rel entries.
Proof.
  induction entries as [|e entries IH]; [reflexivity|].
  destruct e as [name f | name sub | name]; cbn [filter isFile]; [|exact IH|exact IH].
  unfold filesOf in *. cbn [flat_map]. now rewrite IH.
Qed.

Lemma below_directories rel entries :
  flat_map (below o rel) (filter isDirectory entries) = flat_map (below o rel) entries.
Proof.
  induction entries as [|e entries IH]; [reflexivity|].
  destruct e as [name f | name sub | name]; cbn [filter isDirectory]; [exact IH| |exact IH].
  cbn [flat_map]. now rewrite IH.
Qed.

(** X11.  The walk of a directory depends on its listing only through the
    sequence of its file entries and the sequence of its directory
    entries: how the two interleave, and entries that are neither, make no
    difference to the text or to the counters. *)
Theorem listing_order_irrelevant rel entries entries' st :
  filter isFile entries = filter isFile entries' ->
  filter isDirectory entries = filter isDirectory entries' ->
  traversal o rel (Some entries) = traversal o rel (Some entries')
  /\ processDirectory o rel (Some entries) st = processDirectory o rel (Some entries') st.
Proof.
  intros Hfiles Hdirs.
  assert (traversal o rel (Some entries) = traversal o rel (Some entries')) as Htrav.
  { unfold traversal, traversalWith.
    rewrite <- (filesOf_files rel entries), <- (filesOf_files rel entries').
    rewrite <- (below_directories rel entries), <- (below_directories rel entries').
    now rewrite Hfiles, Hdirs. }
  split; [exact Htrav|]. now rewrite !processDirectory_steps, Htrav.
Qed.

End ListingOrder.

Lemma listing_order_irrelevant_witness :
  processDirectory (L := Sample.lib) Sample.defaults ""
      (Some [ Directory "sub" (Some [ File "c.txt" (Sample.text 5 "world") ]);
              Other "link";
              File "a.txt" (Sample.text 5 "hello");
              File "b.bin" (Sample.binary 4 "%PDF") ]) initial
  = processDirectory (L := Sample.lib) Sample.defaults "" Sample.scenario initial.
Proof.
  apply (listing_order_irrelevant (L := Sample.lib) Sample.defaults "" _ _ initial);
    reflexivity.
Defined.

(** ** An empty text *)

Lemma append_empty (a b : string) : a +++ b = EmptyString -> a = EmptyString.
Proof. destruct a; [reflexivity | discriminate]. Qed.

Section EmptyText.

Context {L : Library}.
Variable o : options.

Lemma render_nonempty (p : piece) : render p <> EmptyString.
Proof.
  destruct p as [r s c | r s | r | n];
    unfold render, fragment, cutoffMarker, fileHeader, directoryMarker, summaryLine;
    rewrite ?append_assoc; discriminate.
Qed.

Lemma renderAll_empty (ps : list piece) : renderAll ps = EmptyString -> ps = [].
Proof.
  destruct ps as [|p ps]; [reflexivity|].
  cbn [renderAll fold_right]. intros H. apply append_empty in H.
  now apply render_nonempty in H.
Qed.

Lemma trace_kinds items :
  forall st p,
    In p (trace o items st) ->
    isFragment p = true \/ isCutoff p = true
    \/ exists dir, p = DirMarker dir /\ In (EnterDirectory dir) items.
Proof.
  induction items as [|it items IH]; intros st p Hin; [contradiction|].
  cbn [trace] in Hin. apply in_app_or in Hin. destruct Hin as [Hin | Hin].
  - destruct it as [r f | r | d]; cbn [emitted] in Hin.
    + destruct (classify o r f (processedFiles st)); try contradiction.
      * destruct (omittedFiles st =? 0); [|contradiction].
        destruct Hin as [<- | []]. right. now left.
      * destruct Hin as [<- | []]. now left.
      * destruct Hin as [<- | []]. now left.
    + destruct Hin as [<- | []]. right. right. exists r. split; [reflexivity | now left].
    + contradiction.
  - destruct (step o it st) as [st1|e]; [|contradiction].
    destruct (IH _ _ Hin) as [H | [H | (dir & -> & H)]]; auto.
    right. right. exists dir. split; [reflexivity | now right].
Qed.

(** X12.  The text of a run is empty exactly when no file was processed, none
    was omitted, and no directory was entered. *)
Theorem empty_text root st :
  run o root = Ok st ->
  (output st = EmptyString
   <-> processedFiles st = 0 /\ omittedFiles st = 0
       /\ forall dir, ~ In (EnterDirectory dir) (traversal o "" root)).
Proof.
  intros H.
  pose proof (run_output _ _ _ H) as Hout.
  destruct (run_inv _ _ _ H) as (walked & Hsteps & _ & Hp & Hs & Ho).
  pose proof (steps_fragments _ _ _ _ Hsteps) as Hfrag.
  destruct (steps_cutoff _ _ _ _ Hsteps) as (Hom & Hmark).
  specialize (Hmark ltac:(simpl; lia)). simpl in Hfrag, Hom, Hmark.
  split.
  - intros Hempty. rewrite Hout in Hempty. apply renderAll_empty in Hempty.
    unfold pieces in Hempty. apply app_eq_nil in Hempty. destruct Hempty as (Htrace & Hsum).
    rewrite Htrace in Hfrag. unfold countIf in Hfrag. simpl in Hfrag.
    split; [lia|]. split.
    + destruct (Z.ltb_spec 0 (omittedFiles st)); [discriminate | lia].
    + intros dir Hin. pose proof (steps_marker _ _ _ _ _ Hsteps Hin) as Hd.
      now rewrite Htrace in Hd.
  - intros (Hproc & Hzero & Hnodir). rewrite Hout. unfold pieces.
    rewrite Hzero. cbn [Z.ltb Z.compare app]. rewrite app_nil_r.
    assert (omittedList o (traversal o "" root) initial = []) as Hnone
        by (destruct (omittedList o (traversal o "" root) initial);
            [reflexivity | simpl in Hom; lia]).
    rewrite Hnone in Hmark. simpl in Hmark.
    destruct (trace o (traversal o "" root) initial) as [|p ps] eqn:Etrace; [reflexivity|].
    exfalso.
    destruct (trace_kinds (traversal o "" root) initial p) as [Hk | [Hk | (dir & _ & Hk)]].
    + rewrite Etrace. now left.
    + rewrite countIf_cons, Hk in Hfrag.
      pose proof (countIf_nonneg isFragment ps). lia.
    + cbn [filter] in Hmark. rewrite Hk in Hmark. discriminate.
    + exact (Hnodir dir Hk).
Qed.

End EmptyText.

Lemma empty_text_witness :
  exists st,
    run (L := Sample.lib) Sample.defaults
        (Some [ File "b.bin" (Sample.binary 4 "%PDF") ]) = Ok st
    /\ skippedFiles st = 1
    /\ (output st = EmptyString
        <-> processedFiles st = 0 /\ omittedFiles st = 0
            /\ forall dir,
                ~ In (EnterDirectory dir)
                     (traversal (L := Sample.lib) Sample.defaults ""
                                (Some [ File "b.bin" (Sample.binary 4 "%PDF") ]))).
Proof.
  eexists. split; [reflexivity|]. split; [reflexivity|].
  apply (empty_text (L := Sample.lib) Sample.defaults
           (Some [ File "b.bin" (Sample.binary 4 "%PDF") ])).
  reflexivity.
Defined.

(** ** Options that make no difference *)

Section Indifference.

Context {L : Library}.

Lemma isIgnored_withTruncate o b r :
  isIgnored (withTruncate o b) r = isIgnored o r.
Proof. reflexivity. Qed.

(** The traversal depends on the options through the ignore patterns
    alone. *)
Lemma traversal_withTruncate o b rel listing :
  traversal (withTruncate o b) rel listing = traversal o rel listing.
Proof. reflexivity. Qed.

Lemma classify_withTruncate o b r f p :
  withinThreshold o (VisitFile r f) = true ->
  classify (withTruncate o b) r f p = classify o r f p.
Proof.
  unfold withinThreshold, classify.
  change (thresholdBytes (withTruncate o b)) with (thresholdBytes o).
  change (isIgnored (withTruncate o b) r) with (isIgnored o r).
  cbn [withTruncate includeAll truncate maxFiles].
  destruct (stat f) as [size|]; [|reflexivity].
  intros H. apply negb_true_iff in H. rewrite H.
  now rewrite !andb_false_r.
Qed.

Lemma steps_withTruncate o b items :
  forallb (withinThreshold o) items = true ->
  forall st, steps (withTruncate o b) items st = steps o items st.
Proof.
  induction items as [|it items IH]; intros Hall st; [reflexivity|].
  cbn [forallb] in Hall. apply andb_prop in Hall. destruct Hall as (Hit & Hall).
  cbn [steps].
  assert (step (withTruncate o b) it st = step o it st) as ->.
  { destruct it as [r f | r | d]; try reflexivity.
    cbn [step]. unfold processFile. now rewrite (classify_withTruncate o b r f _ Hit). }
  destruct (step o it st); [apply IH, Hall | reflexivity].
Qed.

(** X13.  When no visited file exceeds the threshold, [--truncate] changes
    nothing: the run ends in the same text and counters, or in the same
    error, with the option on or off. *)
Theorem truncate_only_touches_oversized o b root :
  forallb (withinThreshold o) (traversal o "" root) = true ->
  run (withTruncate o b) root = run o root
  /\ processFiles (withTruncate o b) root = processFiles o root.
Proof.
  intros Hall.
  assert (run (withTruncate o b) root = run o root) as Hrun.
  { unfold run. rewrite !processDirectory_steps, traversal_withTruncate.
    now rewrite (steps_withTruncate o b _ Hall). }
  split; [exact Hrun|]. unfold processFiles. now rewrite Hrun.
Qed.

(** X14.  With [--include-all] the binary probe is never consulted and no file
    is skipped for its size or for being binary: a file is eligible
    exactly when [stat] and [readFile] answer and no pattern ignores it. *)
Theorem include_all_skips_only_unreadable_or_ignored o r f p :
  includeAll o = true ->
  (forall probe, classify o r (mkFile (stat f) probe (readFile f)) p = classify o r f p)
  /\ classify o r f p <> SkipLarge
  /\ classify o r f p <> SkipBinary
  /\ eligible o r f = readable f && negb (isIgnored o r).
Proof.
  intros Hall.
  assert (forall g q, stat g = stat f -> readFile g = readFile f ->
                      classify o r g q
                      = match stat f with
                        | None => SkipUnreadable
                        | Some size =>
                          if isIgnored o r then SkipIgnored
                          else match readFile f with
                               | None => SkipUnreadable
                               | Some content =>
                                 if JS.truthy (maxFiles o) && (maxFiles o <=? q)
                                 then Omit size
                                 else if truncate o && JS.gt size (thresholdBytes o)
                                 then IncludeTruncated size
                                        (JS.slice0 content (thresholdBytes o)
                                           +++ truncationNote o)
                                 else IncludeFull size content
                               end
                        end) as Hshape.
  { intros g q Hs Hr. unfold classify. rewrite Hs, Hr, Hall. reflexivity. }
  split; [|split; [|split]].
  - intros probe. now rewrite !Hshape.
  - rewrite (Hshape f p eq_refl eq_refl).
    destruct (stat f); [|discriminate].
    destruct (isIgnored o r); [discriminate|].
    destruct (readFile f); [|discriminate].
    destruct (JS.truthy (maxFiles o) && (maxFiles o <=? p)); [discriminate|].
    destruct (truncate o && JS.gt z (thresholdBytes o)); discriminate.
  - rewrite (Hshape f p eq_refl eq_refl).
    destruct (stat f); [|discriminate].
    destruct (isIgnored o r); [discriminate|].
    destruct (readFile f); [|discriminate].
    destruct (JS.truthy (maxFiles o) && (maxFiles o <=? p)); [discriminate|].
    destruct (truncate o && JS.gt z (thresholdBytes o)); discriminate.
  - unfold eligible, readable. rewrite (Hshape f 0 eq_refl eq_refl).
    destruct (stat f); [|reflexivity].
    destruct (isIgnored o r); [now destruct (readFile f)|].
    destruct (readFile f); [|reflexivity].
    destruct (JS.truthy (maxFiles o) && (maxFiles o <=? 0)); [reflexivity|].
    destruct (truncate o && JS.gt z (thresholdBytes o)); reflexivity.
Qed.

End Indifference.

Lemma truncate_only_touches_oversized_witness :
  forallb (withinThreshold Sample.defaults)
          (traversal (L := Sample.lib) Sample.defaults "" Sample.scenario) = true
  /\ run (L := Sample.lib) (withTruncate Sample.defaults true) Sample.scenario
     = run (L := Sample.lib) Sample.defaults Sample.scenario.
Proof.
  split; [reflexivity|].
  apply (truncate_only_touches_oversized (L := Sample.lib) Sample.defaults true Sample.scenario).
  reflexivity.
Defined.

Lemma include_all_skips_only_unreadable_or_ignored_witness :
  includeAll (mkOptions 1 true None false 0) = true
  /\ classify (L := Sample.lib) (mkOptions 1 true None false 0) "big.bin" Sample.bigBinary 0
     = IncludeFull 2097152 "%PDF"
  /\ eligible (L := Sample.lib) (mkOptions 1 true None false 0) "big.bin" Sample.bigBinary
     = readable Sample.bigBinary
       && negb (isIgnored (L := Sample.lib) (mkOptions 1 true None false 0) "big.bin").
Proof.
  split; [reflexivity|]. split; [reflexivity|].
  apply (include_all_skips_only_unreadable_or_ignored (L := Sample.lib)
           (mkOptions 1 true None false 0) "big.bin" Sample.bigBinary 0).
  reflexivity.
Defined.

(** ** The walk only adds *)

Section Growth.

Context {L : Library}.
Variable o : options.

Lemma steps_grow items :
  forall st st',
    steps o items st = Ok st' ->
    processedFiles st <= processedFiles st'
    /\ skippedFiles st <= skippedFiles st'
    /\ omittedFiles st <= omittedFiles st'.
Proof.
  induction items as [|it items IH]; intros st st' H.
  - injection H as <-. lia.
  - destruct it as [r f | r | d]; cbn [steps step bind] in H; try discriminate;
      apply IH in H.
    + unfold processFile in H.
      destruct (classify o r f (processedFiles st));
        cbn [settle skip processedFiles skippedFiles omittedFiles] in H; lia.
    + cbn [emit processedFiles skippedFiles omittedFiles] in H. lia.
Qed.

(** X15.  [processDirectory] never rewrites what is already in the text and
    never lowers a counter: from any state, the text it ends with is the
    text it started from followed by the pieces of the directory, and each
    counter is at least what it was. *)
Theorem processDirectory_only_adds rel listing st st' :
  processDirectory o rel listing st = Ok st' ->
  output st' = output st +++ renderAll (trace o (traversal o rel listing) st)
  /\ processedFiles st <= processedFiles st'
  /\ skippedFiles st <= skippedFiles st'
  /\ omittedFiles st <= omittedFiles st'.
Proof.
  rewrite processDirectory_steps. intros H.
  split; [now apply steps_output | exact (steps_grow _ _ _ H)].
Qed.

End Growth.

Lemma processDirectory_only_adds_witness :
  exists st',
    processDirectory (L := Sample.lib) Sample.defaults "" Sample.emptyDir
                     (mkState "kept" 3 2 1) = Ok st'
    /\ output st' = "kept" +++ JS.nl +++ "**** Directory: empty"
    /\ processedFiles (mkState "kept" 3 2 1) <= processedFiles st'.
Proof.
  eexists. split; [reflexivity|]. split; [reflexivity|].
  apply (processDirectory_only_adds (L := Sample.lib) Sample.defaults "" Sample.emptyDir
           (mkState "kept" 3 2 1)).
  reflexivity.
Defined.

(** ** The main function *)

Section Main.

Context {L : Library}.

Lemma traversal_without_ignored o rel before name sub after :
  isIgnored o (relPath rel name) = true ->
  traversal o rel (Some (before ++ Directory name sub :: after))
  = traversal o rel (Some (before ++ after)).
Proof.
  intros Hign. unfold traversal, traversalWith.
  rewrite !filesOf_app, !flat_map_app.
  cbn [filesOf flat_map app below]. now rewrite Hign.
Qed.

(** X16.  Under the options [main] builds, whatever [--ignore] holds, the
    patterns [node_modules] and [.git] are among the ignore patterns: a
    directory of the root with one of these names, when the pattern
    matches the name itself, is pruned and leaves the text as if it were
    not there. *)
Theorem main_prunes_builtin_directories fl name before sub after :
  In name alwaysIgnored ->
  minimatch name name = true ->
  In name (match ignorePatterns (mainOptions fl) with Some ps => ps | None => [] end)
  /\ processFiles (mainOptions fl) (Some (before ++ Directory name sub :: after))
     = processFiles (mainOptions fl) (Some (before ++ after)).
Proof.
  intros Hin Hmatch.
  assert (In name (Str.split "," (ignoreFlag fl) ++ alwaysIgnored)) as Hpat
      by (apply in_or_app; now right).
  split; [exact Hpat|].
  assert (isIgnored (mainOptions fl) (relPath "" name) = true) as Hign
      by (apply (isIgnored_matching (mainOptions fl) (relPath "" name)
                   (Str.split "," (ignoreFlag fl) ++ alwaysIgnored) name eq_refl Hpat);
          exact Hmatch).
  unfold processFiles, run.
  now rewrite !processDirectory_steps, (traversal_without_ignored _ _ _ _ _ _ Hign).
Qed.

(** X17.  [main] writes at most one file, and only when every stage succeeded:
    the content is the text [processFiles] returned for the clone, it is
    not empty, the path is [--output] or else the repository name with
    [.txt], and the write is followed by the cleanup and a normal end. *)
Theorem main_writes_only_the_text w path content :
  In (Wrote path content) (fst (main w)) ->
  testEnv w = false
  /\ content <> EmptyString
  /\ main w = ([Wrote path content; CleanedUp], Completed)
  /\ exists url normalizedUrl files,
      validateInput (cliInput w) = Returns url
      /\ normalizeGitHubUrl url = Returns normalizedUrl
      /\ gitClone w normalizedUrl = Returns files
      /\ files <> []
      /\ processFiles (mainOptions (cliFlags w)) (Some files) = Ok content
      /\ path = outputPath (cliFlags w) (repoName url)
      /\ writeFile w path content = true.
Proof.
  unfold main.
  destruct (validateInput (cliInput w)) as [url|message] eqn:Hvalid; [|contradiction].
  destruct (testEnv w) eqn:Htest; [contradiction|].
  unfold downloadRepository.
  destruct (normalizeGitHubUrl url) as [normalizedUrl|message] eqn:Hnorm;
    [|now intros [H | []]].
  destruct (gitClone w normalizedUrl) as [[|e es]|message] eqn:Hclone;
    try (now intros [H | []]).
  destruct (processFiles (mainOptions (cliFlags w)) (Some (e :: es)))
    as [[|c text]|err] eqn:Hrun; try contradiction.
  destruct (writeFile w (outputPath (cliFlags w) (repoName url)) (String c text)) eqn:Hwrite;
    [|contradiction].
  cbn [fst app]. intros [H | [H | []]]; [|discriminate].
  injection H as <- <-.
  split; [reflexivity|]. split; [discriminate|]. split; [reflexivity|].
  exists url, normalizedUrl, (e :: es).
  repeat split; try assumption; discriminate.
Qed.

(** X18.  Once the clone is there, a failure of any later stage ends the
    process with status 1 before the cleanup is reached: nothing is
    written and the clone is left behind.  This is so when
    [processFiles] throws, when the text is empty, and when the write
    fails. *)
Theorem failure_after_clone_skips_cleanup w url normalizedUrl files :
  testEnv w = false ->
  validateInput (cliInput w) = Returns url ->
  normalizeGitHubUrl url = Returns normalizedUrl ->
  gitClone w normalizedUrl = Returns files ->
  files <> [] ->
  (forall content,
      processFiles (mainOptions (cliFlags w)) (Some files) = Ok content ->
      content = EmptyString
      \/ writeFile w (outputPath (cliFlags w) (repoName url)) content = false) ->
  main w = ([], Exited 1).
Proof.
  intros Htest Hvalid Hnorm Hclone Hfiles Hlater.
  unfold main, downloadRepository. rewrite Hvalid, Htest, Hnorm, Hclone.
  destruct files as [|e es]; [contradiction|].
  destruct (processFiles (mainOptions (cliFlags w)) (Some (e :: es)))
    as [[|c text]|err] eqn:Hrun; try reflexivity.
  destruct (Hlater _ eq_refl) as [H | H]; [discriminate|]. now rewrite H.
Qed.

(** X19.  A URL that contains [github.com] but begins with neither GitHub
    prefix gets past [validateInput] and fails in [normalizeGitHubUrl]:
    [main] then ends with status 1 after the cleanup of
    [downloadRepository], without cloning or writing anything, whatever
    the clone or the write would have done. *)
Theorem unnormalizable_url_exits w url others :
  testEnv w = false ->
  cliInput w = Some (url :: others) ->
  Str.includes "github.com" url = true ->
  Str.startsWith "git@github.com:" url = false ->
  Str.startsWith "https://github.com/" url = false ->
  main w = ([CleanedUp], Exited 1).
Proof.
  intros Htest Hinput Hinc Hgit Hhttps.
  assert (validateInput (cliInput w) = Returns url) as Hvalid
      by (rewrite Hinput; unfold validateInput; now rewrite Hinc).
  assert (normalizeGitHubUrl url
          = Throws ("Invalid GitHub URL: " +++ Str.stripTrailingSlashes url)) as Hnorm.
  { unfold normalizeGitHubUrl.
    rewrite (startsWith_strip _ _ Hgit), (startsWith_strip _ _ Hhttps).
    now rewrite (dotted_not_shortForm _ (dotted_strip _ (includes_github_dot _ Hinc))). }
  unfold main, downloadRepository. now rewrite Hvalid, Htest, Hnorm.
Qed.

End Main.

Lemma main_prunes_builtin_directories_witness :
  In ".git"%string alwaysIgnored
  /\ minimatch (Library := Sample.lib) ".git" ".git" = true
  /\ processFiles (L := Sample.lib) (mainOptions defaultFlags)
       (Some ([ File "a.txt" (Sample.text 5 "hello") ]
                ++ Directory ".git" (Some [ File "HEAD" (Sample.text 4 "ref:") ]) :: []))
     = processFiles (L := Sample.lib) (mainOptions defaultFlags)
         (Some ([ File "a.txt" (Sample.text 5 "hello") ] ++ [])).
Proof.
  split; [right; now left|]. split; [reflexivity|].
  apply (main_prunes_builtin_directories (L := Sample.lib) defaultFlags ".git").
  - right; now left.
  - reflexivity.
Defined.

Lemma main_writes_only_the_text_witness :
  exists content,
    In (Wrote "Spoon-Knife.txt" content)
       (fst (main (L := Sample.lib) (Worlds.cloning "octocat/Spoon-Knife" Worlds.hello)))
    /\ main (L := Sample.lib) (Worlds.cloning "octocat/Spoon-Knife" Worlds.hello)
       = ([Wrote "Spoon-Knife.txt" content; CleanedUp], Completed).
Proof.
  eexists. split.
  - left. reflexivity.
  - apply (main_writes_only_the_text (L := Sample.lib)
             (Worlds.cloning "octocat/Spoon-Knife" Worlds.hello)).
    left. reflexivity.
Defined.

Lemma failure_after_clone_skips_cleanup_witness :
  processFiles (L := Sample.lib) (mainOptions defaultFlags) (Some Worlds.onlyBinary)
  = Ok EmptyString
  /\ main (L := Sample.lib) (Worlds.cloning "octocat/Spoon-Knife" Worlds.onlyBinary)
     = ([], Exited 1).
Proof.
  split; [reflexivity|].
  apply (failure_after_clone_skips_cleanup (L := Sample.lib)
           (Worlds.cloning "octocat/Spoon-Knife" Worlds.onlyBinary)
           "octocat/Spoon-Knife" "https://github.com/octocat/Spoon-Knife" Worlds.onlyBinary);
    try reflexivity.
  - discriminate.
  - intros content H. left. injection H as <-. reflexivity.
Defined.

Lemma unnormalizable_url_exits_witness :
  Str.includes "github.com" "http://github.com/octocat/Spoon-Knife" = true
  /\ main (L := Sample.lib) (Worlds.cloning "http://github.com/octocat/Spoon-Knife" Worlds.hello)
     = ([CleanedUp], Exited 1).
Proof.
  split; [reflexivity|].
  apply (unnormalizable_url_exits (L := Sample.lib)
           (Worlds.cloning "http://github.com/octocat/Spoon-Knife" Worlds.hello)
           "http://github.com/octocat/Spoon-Knife" []);
    reflexivity.
Defined.
